(** * XROptimizationManager: the performance-level controller

    A shallow embedding of the performance-level logic of
    [src/js/integration_manager.js] (class [XROptimizationManager]):
    device classification, [setPerformanceLevel], the low/good performance
    handlers, the temporary boost, error recovery and the event emitter.

    The manager is a mutable JavaScript object living in a browser.  It is
    modelled by a record [World] that is threaded through a small
    state-and-exception monad [M]: a method either completes normally or
    throws, and in both cases leaves a world behind.  Everything the manager
    does to its surroundings (console output, calls into components, calls
    of listeners, renderer settings) is appended to a trace.  Deferred
    callbacks registered with [setTimeout] are kept in a queue that the
    event loop [advance_to] drains in order of due time.  The listeners of
    a [World] only return or throw; listeners that call [on] and [off]
    while [emit] dispatches to them are treated in the module [Live]. *)

From Stdlib Require Import ZArith QArith Qminmax Lqa String List Bool Lia.
From stdpp Require Import base strings pretty gmap list.

Local Open Scope string_scope.
Local Open Scope list_scope.
Local Open Scope Z_scope.

(** ** Data model *)

(** The three strings accepted as a performance level. *)
Inductive Level : Type := high | medium | low.

Definition level_eqb (a b : Level) : bool :=
  match a, b with
  | high, high | medium, medium | low, low => true
  | _, _ => false
  end.

Definition level_name (l : Level) : string :=
  match l with
  | high => "high"
  | medium => "medium"
  | low => "low"
  end.

(** A JavaScript value as far as the manager inspects one: what a caller
    may hand to [setPerformanceLevel]. *)
Inductive value : Type :=
| VUndefined
| VNull
| VBool (b : bool)
| VNum (q : Q)
| VStr (s : string).

(** The value of [event.error], and any value a callback may throw.
    Only its [message] property is ever read. *)
Inductive ErrorVal : Type :=
| ErrNull                      (* null or undefined *)
| ErrOpaque                    (* a value without a string [message] *)
| ErrObj (message : string).   (* an object whose [message] is a string *)

(** The second argument of [emit]. *)
Inductive Payload : Type :=
| PUndefined
| PLevel (level : Level)
| PError (error : ErrorVal).

(** What a call into foreign code (a component method, a listener) does,
    as seen by the manager: it returns or it throws. *)
Inductive outcome : Type :=
| Returns
| Throws (e : ErrorVal).

(** An entry of [this.components] that is not null.  [setQualityLevel] is
    [None] when the object has no such method. *)
Record Component : Type := mkComponent {
  setQualityLevel : option (Level -> outcome)
}.

(** A listener registered with [on].  [cb_id] stands for the identity of
    the function object, which is what [indexOf] compares in [off].  The
    listeners of a [World] are passive: handed the data they return or
    throw, and they do not call into the manager.  Listeners that call
    [on] and [off] while they are dispatched are the subject of the module
    [Live] below. *)
Record Callback : Type := mkCallback {
  cb_id : nat;
  cb_run : Payload -> outcome
}.

(** The table of [applyGlobalPerformanceSettings]. *)
Record PerformanceSettings : Type := mkSettings {
  targetFPS : Z;
  maxEntities : Z;
  shadowQuality : Level
}.

(** What the browser tells the manager about the device and the scene. *)
Record Env : Type := mkEnv {
  webgl : option string;            (* RENDERER of the context, if one is obtained *)
  deviceMemory : option Q;          (* navigator.deviceMemory *)
  hardwareConcurrency : option Z;   (* navigator.hardwareConcurrency *)
  sceneRenderer : bool;             (* scene && scene.renderer *)
  devicePixelRatio : Q
}.

(** Everything observable the manager does. *)
Inductive Effect : Type :=
| ConsoleLog (msg : string)
| ConsoleWarn (msg : string)
| ConsoleError (msg : string)
| QualitySet (component : string) (level : Level)
| ShadowMap (enabled : bool)
| PixelRatio (ratio : Q)
| Invoked (event : string) (cb : nat) (data : Payload)
| Uncaught (e : ErrorVal).

(** The two closures the manager hands to [setTimeout]. *)
Inductive Task : Type :=
| UpgradeTask                        (* the arrow function of handleGoodPerformance *)
| RevertTask (originalLevel : Level) (* the arrow function of boostPerformanceTemporarily *).

Record Timer : Type := mkTimer {
  due : Z;
  task : Task
}.

Record World : Type := mkWorld {
  currentPerformanceLevel : Level;
  enableVoiceOptimization : bool;
  components : list (string * option Component);
  listeners : gmap string (list Callback);
  env : Env;
  timers : list Timer;
  now : Z;
  trace : list Effect
}.

Definition with_level (l : Level) (w : World) : World :=
  mkWorld l (enableVoiceOptimization w) (components w) (listeners w)
          (env w) (timers w) (now w) (trace w).

Definition with_voice (b : bool) (w : World) : World :=
  mkWorld (currentPerformanceLevel w) b (components w) (listeners w)
          (env w) (timers w) (now w) (trace w).

Definition with_listeners (m : gmap string (list Callback)) (w : World) : World :=
  mkWorld (currentPerformanceLevel w) (enableVoiceOptimization w) (components w) m
          (env w) (timers w) (now w) (trace w).

Definition with_timers (ts : list Timer) (w : World) : World :=
  mkWorld (currentPerformanceLevel w) (enableVoiceOptimization w) (components w)
          (listeners w) (env w) ts (now w) (trace w).

Definition with_now (t : Z) (w : World) : World :=
  mkWorld (currentPerformanceLevel w) (enableVoiceOptimization w) (components w)
          (listeners w) (env w) (timers w) t (trace w).

Definition with_trace (tr : list Effect) (w : World) : World :=
  mkWorld (currentPerformanceLevel w) (enableVoiceOptimization w) (components w)
          (listeners w) (env w) (timers w) (now w) tr.

(** ** The method monad *)

Inductive Completion (A : Type) : Type :=
| Normal (a : A)
| Thrown (e : ErrorVal).
Arguments Normal {A} a.
Arguments Thrown {A} e.

Definition M (A : Type) : Type := World -> World * Completion A.

Definition ret {A} (a : A) : M A := fun w => (w, Normal a).

Definition throw {A} (e : ErrorVal) : M A := fun w => (w, Thrown e).

Definition bind {A B} (c : M A) (k : A -> M B) : M B :=
  fun w =>
    match c w with
    | (w', Normal a) => k a w'
    | (w', Thrown e) => (w', Thrown e)
    end.

Notation "'let!' x ':=' c 'in' k" := (bind c (fun x => k))
  (at level 10, x name, c at level 99, k at level 200).
Notation "c '>>' k" := (bind c (fun _ => k))
  (at level 100, k at level 200, right associativity).

Definition effect (e : Effect) : M unit :=
  fun w => (with_trace (trace w ++ [e]) w, Normal tt).

Definition modify (f : World -> World) : M unit :=
  fun w => (f w, Normal tt).

Definition gets {A} (f : World -> A) : M A :=
  fun w => (w, Normal (f w)).

(** Calling foreign code: a throw propagates. *)
Definition call (o : outcome) : M unit :=
  match o with
  | Returns => ret tt
  | Throws e => throw e
  end.

(** The world a method leaves behind, and how it completed. *)
Definition exec {A} (c : M A) (w : World) : World := fst (c w).
Definition completion {A} (c : M A) (w : World) : Completion A := snd (c w).

(** ** The event system: [on], [off], [emit] *)

Definition on (event : string) (callback : Callback) : M unit :=
  modify (fun w =>
    let m := match listeners w !! event with
             | Some _ => listeners w
             | None => <[event := []]> (listeners w)
             end in
    with_listeners (alter (fun cbs => (cbs ++ [callback])%list) event m) w).

(** [callbacks.splice(index, 1)] at the first index holding [callback]. *)
Fixpoint remove_first (id : nat) (cbs : list Callback) : list Callback :=
  match cbs with
  | [] => []
  | cb :: rest => if Nat.eqb (cb_id cb) id then rest else cb :: remove_first id rest
  end.

Definition off (event : string) (callback : Callback) : M unit :=
  modify (fun w =>
    match listeners w !! event with
    | Some _ => with_listeners (alter (remove_first (cb_id callback)) event (listeners w)) w
    | None => w
    end).

(** The body of the [forEach] in [emit]: the call sits in a [try], the
    [catch] logs and goes on. *)
Definition invoke (event : string) (data : Payload) (cb : Callback) : M unit :=
  effect (Invoked event (cb_id cb) data) >>
  match cb_run cb data with
  | Returns => ret tt
  | Throws _ => effect (ConsoleError ("Error in event listener for " +:+ event +:+ ":"))
  end.

Fixpoint invokeAll (event : string) (data : Payload) (cbs : list Callback) : M unit :=
  match cbs with
  | [] => ret tt
  | cb :: rest => invoke event data cb >> invokeAll event data rest
  end.

Definition emit (event : string) (data : Payload) : M unit :=
  let! registered := gets (fun w => listeners w !! event) in
  match registered with
  | Some cbs => invokeAll event data cbs
  | None => ret tt
  end.

(** ** Setting the level *)

(** [['high', 'medium', 'low'].includes(level)], together with the level the
    accepted string denotes. *)
Definition level_of_value (v : value) : option Level :=
  match v with
  | VStr s =>
      if String.eqb s "high" then Some high
      else if String.eqb s "medium" then Some medium
      else if String.eqb s "low" then Some low
      else None
  | _ => None
  end.

Definition settings (level : Level) : PerformanceSettings :=
  match level with
  | high => mkSettings 90 200 high
  | medium => mkSettings 60 150 medium
  | low => mkSettings 30 100 low
  end.

Definition applyGlobalPerformanceSettings (level : Level) : M unit :=
  let currentSettings := settings level in
  let! e := gets env in
  if sceneRenderer e then
    if level_eqb level low then
      effect (ShadowMap false) >>
      effect (PixelRatio 1)
    else
      effect (ShadowMap true) >>
      effect (PixelRatio (Qmin (devicePixelRatio e)
                               (if level_eqb level high then 2 else 3 # 2)))
  else ret tt.

(** The [forEach] over [Object.values(this.components)]: no [try] here, a
    throwing component ends the loop and the method. *)
Fixpoint notifyComponents (level : Level) (cs : list (string * option Component)) : M unit :=
  match cs with
  | [] => ret tt
  | (name, c) :: rest =>
      match c with
      | Some {| setQualityLevel := Some f |} =>
          effect (QualitySet name level) >> call (f level)
      | _ => ret tt
      end >>
      notifyComponents level rest
  end.

Definition setPerformanceLevel (level : value) : M unit :=
  match level_of_value level with
  | None =>
      effect (ConsoleWarn "Invalid performance level:") >>
      ret tt
  | Some l =>
      modify (with_level l) >>
      let! cs := gets components in
      notifyComponents l cs >>
      applyGlobalPerformanceSettings l >>
      effect (ConsoleLog ("Performance level set to: " +:+ level_name l)) >>
      emit "performanceLevelChanged" (PLevel l)
  end.

(** ** Device classification *)

(** [haystack.includes(needle)] *)
Fixpoint includes (haystack needle : string) : bool :=
  String.prefix needle haystack
  || match haystack with
     | EmptyString => false
     | String _ rest => includes rest needle
     end.

(** [x || 4] on a number that may be undefined: undefined and 0 are falsy. *)
Definition or_default_Q (x : option Q) (d : Q) : Q :=
  match x with
  | Some q => if Qeq_bool q 0 then d else q
  | None => d
  end.

Definition or_default_Z (x : option Z) (d : Z) : Z :=
  match x with
  | Some n => if n =? 0 then d else n
  | None => d
  end.

Definition performanceScore (renderer : string) (memory : Q) (cores : Z) : Z :=
  let performanceScore := 0 in
  let performanceScore :=
    if Qle_bool 8 memory then performanceScore + 3
    else if Qle_bool 4 memory then performanceScore + 2
    else performanceScore + 1 in
  let performanceScore :=
    if 8 <=? cores then performanceScore + 3
    else if 4 <=? cores then performanceScore + 2
    else performanceScore + 1 in
  let performanceScore :=
    if includes renderer "GeForce" || includes renderer "Radeon"
       || includes renderer "Intel Iris"
    then performanceScore + 2
    else performanceScore + 1 in
  performanceScore.

Definition levelForScore (performanceScore : Z) : string :=
  let level := "medium" in
  if 7 <=? performanceScore then "high"
  else if performanceScore <=? 4 then "low"
  else level.

Definition detectOptimalPerformanceLevel : M unit :=
  let! e := gets env in
  match webgl e with
  | None =>
      setPerformanceLevel (VStr "low") >>
      ret tt
  | Some renderer =>
      let memory := or_default_Q (deviceMemory e) 4 in
      let cores := or_default_Z (hardwareConcurrency e) 4 in
      let score := performanceScore renderer memory cores in
      let level := levelForScore score in
      effect (ConsoleLog ("Auto-detected performance level: " +:+ level
                          +:+ " (score: " +:+ pretty score +:+ ")")) >>
      setPerformanceLevel (VStr level)
  end.

Definition is_auto (v : value) : bool :=
  match v with
  | VStr s => String.eqb s "auto"
  | _ => false
  end.

(** [setupPerformanceAdaptation], given the constructor's options.
    [this.options] is [{ ..., performanceTarget: options.performanceTarget
    || 'auto', ...options }]: the spread comes last, so a
    [performanceTarget] key that is present wins with whatever value it
    has, and 'auto' is used when the key is absent ([None]). *)
Definition setupPerformanceAdaptation (option_performanceTarget : option value) : M unit :=
  let performanceTarget :=
    match option_performanceTarget with
    | Some v => v
    | None => VStr "auto"
    end in
  if is_auto performanceTarget then detectOptimalPerformanceLevel
  else setPerformanceLevel performanceTarget.

(** ** Timers *)

(** The delay of a timer is a signed 32-bit integer: a number is taken
    modulo 2^32 into the range from -2^31 to 2^31 - 1. *)
Definition to_int32 (n : Z) : Z :=
  let m := n mod 4294967296 in
  if m <? 2147483648 then m else m - 4294967296.

(** [setTimeout(callback, delay)]: the delay is read as a signed 32-bit
    integer and a negative one counts as 0; the callback becomes due that
    many milliseconds from now.  So a delay from 2^31 on does not wait that
    long: 2^31 itself wraps to a negative number and is due at once. *)
Definition setTimeout (callback : Task) (delay : Z) : M unit :=
  modify (fun w =>
    with_timers (timers w ++ [mkTimer (now w + Z.max 0 (to_int32 delay)) callback]) w).

(** ** Event handlers *)

Definition handleLowPerformance : M unit :=
  effect (ConsoleLog "Low performance detected:") >>
  let! current := gets currentPerformanceLevel in
  if negb (level_eqb current low) then
    let newLevel := if level_eqb current high then "medium" else "low" in
    setPerformanceLevel (VStr newLevel)
  else ret tt.

(** The arrow function handed to [setTimeout] by [handleGoodPerformance]. *)
Definition upgrade : M unit :=
  let! current := gets currentPerformanceLevel in
  if negb (level_eqb current high) then
    let newLevel := if level_eqb current low then "medium" else "high" in
    setPerformanceLevel (VStr newLevel)
  else ret tt.

Definition handleGoodPerformance : M unit :=
  effect (ConsoleLog "Good performance detected:") >>
  setTimeout UpgradeTask 5000.

(** [duration] is [None] when the argument is left out: the default is 5000. *)
Definition boostPerformanceTemporarily (duration : option Z) : M unit :=
  let duration := match duration with Some d => d | None => 5000 end in
  let! originalLevel := gets currentPerformanceLevel in
  if negb (level_eqb originalLevel high) then
    setPerformanceLevel (VStr "high") >>
    setTimeout (RevertTask originalLevel) duration
  else ret tt.

Definition handleVoiceActivityStart : M unit :=
  effect (ConsoleLog "Voice activity started") >>
  emit "voiceActivityStart" PUndefined >>
  boostPerformanceTemporarily None.

(** [error.message.includes(...)]: reading [message] of null or undefined
    throws a TypeError, and so does calling [includes] on a [message] that
    is not a string. *)
Definition message_of (error : ErrorVal) : M string :=
  match error with
  | ErrNull => throw (ErrObj "TypeError: Cannot read properties of null (reading 'message')")
  | ErrOpaque => throw (ErrObj "TypeError: Cannot read properties of undefined (reading 'includes')")
  | ErrObj message => ret message
  end.

Definition recoverFromError (error : ErrorVal) : M unit :=
  let! message := message_of error in
  (if includes message "voice" || includes message "audio" then
     modify (with_voice false) >>
     effect (ConsoleLog "Disabled voice optimizations due to error")
   else ret tt) >>
  let! current := gets currentPerformanceLevel in
  if level_eqb current high then setPerformanceLevel (VStr "medium")
  else ret tt.

(** [event] is represented by its [error] property. *)
Definition handleGlobalError (event_error : ErrorVal) : M unit :=
  effect (ConsoleError "Global error:") >>
  emit "globalError" (PError event_error) >>
  recoverFromError event_error.

(** ** The event loop *)

Definition run_task (t : Task) : M unit :=
  match t with
  | UpgradeTask => upgrade
  | RevertTask originalLevel => setPerformanceLevel (VStr (level_name originalLevel))
  end.

(** Running a due callback.  What it throws is caught by nobody: the
    browser reports it, which the trace records. *)
Definition fire (tm : Timer) (w : World) : World :=
  match run_task (task tm) w with
  | (w', Normal _) => w'
  | (w', Thrown e) => with_trace (trace w' ++ [Uncaught e]) w'
  end.

(** The pending timer that is due first (the one registered first among
    equals), and the others. *)
Fixpoint pick (ts : list Timer) : option (Timer * list Timer) :=
  match ts with
  | [] => None
  | tm :: rest =>
      match pick rest with
      | None => Some (tm, [])
      | Some (m, rest') =>
          if due tm <=? due m then Some (tm, rest) else Some (m, tm :: rest')
      end
  end.

Fixpoint run_due (fuel : nat) (t : Z) (w : World) : World :=
  match fuel with
  | O => w
  | S fuel' =>
      match pick (timers w) with
      | Some (tm, rest) =>
          if due tm <=? t then
            run_due fuel' t
              (fire tm (with_now (Z.max (now w) (due tm)) (with_timers rest w)))
          else w
      | None => w
      end
  end.

(** Let time pass until the clock shows [t]: every callback due by then
    runs, in order.  No callback of the manager sets a timer, so there are
    at most as many rounds as there are pending timers. *)
Definition advance_to (t : Z) (w : World) : World :=
  let w' := run_due (length (timers w)) t w in
  with_now (Z.max (now w') t) w'.

Definition elapse (d : Z) (w : World) : World := advance_to (now w + d) w.

(** ** Construction *)

(** The fields the constructor sets, for a given page.  [components] are
    filled in by [init]; they are a parameter here. *)
Definition construct (e : Env) (cs : list (string * option Component)) : World :=
  mkWorld high true cs ∅ e [] 0 [].

(** ** Observations on worlds and traces *)

(** A computation that may add to the trace and touches nothing else,
    however it completes. *)
Definition trace_only {A} (c : M A) : Prop :=
  forall w, exists d r, c w = (with_trace (trace w ++ d) w, r).

(** What one listener contributes to the trace: its call and, if it
    throws, the line logged by the [catch]. *)
Definition invoke_effects (event : string) (data : Payload) (cb : Callback) : list Effect :=
  Invoked event (cb_id cb) data
  :: match cb_run cb data with
     | Returns => []
     | Throws _ => [ConsoleError ("Error in event listener for " +:+ event +:+ ":")]
     end.

Definition emit_effects (event : string) (data : Payload) (cbs : list Callback) : list Effect :=
  flat_map (invoke_effects event data) cbs.

Definition registered (event : string) (w : World) : list Callback :=
  match listeners w !! event with
  | Some cbs => cbs
  | None => []
  end.

(** The calls of listeners recorded in a trace, in order. *)
Definition invocations (tr : list Effect) : list (string * nat * Payload) :=
  flat_map (fun e => match e with
                     | Invoked event cb data => [(event, cb, data)]
                     | _ => []
                     end) tr.

(** The calls of [setQualityLevel] recorded in a trace, in order. *)
Definition quality_calls (tr : list Effect) : list (string * Level) :=
  flat_map (fun e => match e with
                     | QualitySet c l => [(c, l)]
                     | _ => []
                     end) tr.

Definition returns (o : outcome) : bool :=
  match o with
  | Returns => true
  | Throws _ => false
  end.

Definition quiet_entry (entry : string * option Component) : bool :=
  match snd entry with
  | Some {| setQualityLevel := Some f |} =>
      returns (f high) && returns (f medium) && returns (f low)
  | _ => true
  end.

(** No component throws from [setQualityLevel]. *)
Definition quiet (w : World) : bool := forallb quiet_entry (components w).

Definition quality_effects (l : Level) (cs : list (string * option Component)) : list Effect :=
  flat_map (fun entry => match snd entry with
                         | Some {| setQualityLevel := Some _ |} => [QualitySet (fst entry) l]
                         | _ => []
                         end) cs.

Definition renderer_effects (l : Level) (e : Env) : list Effect :=
  if sceneRenderer e then
    if level_eqb l low then [ShadowMap false; PixelRatio 1]
    else [ShadowMap true;
          PixelRatio (Qmin (devicePixelRatio e) (if level_eqb l high then 2 else 3 # 2))]
  else [].

(** One notification round: what an accepted [setPerformanceLevel] adds
    to the trace when no component throws.  It depends on the level asked
    for, not on the current one. *)
Definition round (l : Level) (w : World) : list Effect :=
  quality_effects l (components w)
  ++ renderer_effects l (env w)
  ++ [ConsoleLog ("Performance level set to: " +:+ level_name l)]
  ++ emit_effects "performanceLevelChanged" (PLevel l)
                  (registered "performanceLevelChanged" w).

(** The names of the components that have a [setQualityLevel]. *)
Definition adjustable (cs : list (string * option Component)) : list string :=
  flat_map (fun entry => match snd entry with
                         | Some {| setQualityLevel := Some _ |} => [fst entry]
                         | _ => []
                         end) cs.

(** One tier down, and one tier up. *)
Definition step_down (l : Level) : Level :=
  match l with
  | high => medium
  | medium => low
  | low => low
  end.

Definition step_up (l : Level) : Level :=
  match l with
  | low => medium
  | medium => high
  | high => high
  end.

(** ** Device classification, as specified *)

Record DeviceProfile : Type := mkProfile {
  memoryGB : Q;
  cpuCores : Z;
  gpuRecognized : bool
}.

(** The renderers the manager counts as a capable GPU. *)
Definition recognizedGPU (renderer : string) : bool :=
  includes renderer "GeForce" || includes renderer "Radeon"
  || includes renderer "Intel Iris".

(** The profile [detectOptimalPerformanceLevel] reads off the browser once
    a graphics context with the given RENDERER is there. *)
Definition capturedProfile (e : Env) (renderer : string) : DeviceProfile :=
  mkProfile (or_default_Q (deviceMemory e) 4)
            (or_default_Z (hardwareConcurrency e) 4)
            (recognizedGPU renderer).

(** 1 point below 4 GB, 2 from 4 GB, 3 from 8 GB. *)
Definition memory_tier (memory : Q) : Z :=
  if Qlt_le_dec memory 4 then 1
  else if Qlt_le_dec memory 8 then 2
  else 3.

(** 1 point below 4 cores, 2 from 4 cores, 3 from 8 cores. *)
Definition cpu_tier (cores : Z) : Z :=
  if cores <? 4 then 1
  else if cores <? 8 then 2
  else 3.

Definition gpu_tier (recognized : bool) : Z :=
  if recognized then 2 else 1.

Definition score (p : DeviceProfile) : Z :=
  memory_tier (memoryGB p) + cpu_tier (cpuCores p) + gpu_tier (gpuRecognized p).

Definition classifyDevice (p : DeviceProfile) : Level :=
  if 7 <=? score p then high
  else if score p <=? 4 then low
  else medium.

(** ** Sample worlds *)

Definition desktop_env : Env :=
  mkEnv (Some "ANGLE (NVIDIA GeForce GTX 1080)") (Some 8%Q) (Some 8) true 2.

Definition headless_env : Env :=
  mkEnv None (Some 8%Q) (Some 8) false 1.

Definition steady_component : Component := mkComponent (Some (fun _ => Returns)).

Definition failing_listener : Callback :=
  mkCallback 1 (fun _ => Throws (ErrObj "listener failed")).

Definition plain_listener : Callback := mkCallback 2 (fun _ => Returns).

Definition sample_components : list (string * option Component) :=
  [("apiClient", None); ("chatManager", Some steady_component);
   ("messagePool", None); ("voiceManager", None); ("vadDetector", None);
   ("performanceMonitor", None); ("spatialOptimizer", None)].

(** A freshly constructed manager with two listeners on level changes. *)
Definition sample_world : World :=
  exec (on "performanceLevelChanged" failing_listener >>
        on "performanceLevelChanged" plain_listener)
       (construct desktop_env sample_components).

(** A manager on a page where no graphics context can be obtained. *)
Definition headless_world : World := construct headless_env sample_components.

(** A manager without components or listeners. *)
Definition bare_world : World := construct desktop_env [].

(** The bare manager after [setPerformanceLevel('low')]. *)
Definition low_world : World := exec (setPerformanceLevel (VStr "low")) bare_world.

(** The bare manager after a good-performance and a low-performance
    report: at [medium], with an upgrade pending. *)
Definition medium_world : World :=
  exec (handleGoodPerformance >> handleLowPerformance) bare_world.

(** ** Pending timers *)

Definition is_upgrade (tm : Timer) : bool :=
  match task tm with
  | UpgradeTask => true
  | RevertTask _ => false
  end.

Definition pending_upgrades (w : World) : list Timer := List.filter is_upgrade (timers w).

Definition pending_reverts (w : World) : list Timer :=
  List.filter (fun tm => negb (is_upgrade tm)) (timers w).

(** ** The emitter with listeners that call back

    The listeners of a [World] are passive: they return or throw and do
    not call into the manager.  A real listener is free to call [on] and
    [off] while it is being dispatched, and [emit] walks the live array
    with [forEach].  This module models the event system by itself, over
    the one part of the manager it reads and writes ([this.listeners]) and
    the console, with listeners that issue such calls. *)
Module Live.

(** A call a listener makes into the event system, and a listener: what it
    calls, in order, when it is handed the data, and whether it then
    returns or throws. *)
Inductive Command : Type :=
| CallOn (event : string) (callback : Listener)
| CallOff (event : string) (callback_id : nat)
with Listener : Type :=
| mkListener (l_id : nat) (l_run : Payload -> list Command * outcome).

Definition l_id (l : Listener) : nat :=
  match l with mkListener id _ => id end.

Definition l_run (l : Listener) : Payload -> list Command * outcome :=
  match l with mkListener _ run => run end.

Definition command_event (c : Command) : string :=
  match c with
  | CallOn event _ => event
  | CallOff event _ => event
  end.

Record Emitter : Type := mkEmitter {
  listeners : gmap string (list Listener);
  trace : list Effect
}.

Definition registered (event : string) (s : Emitter) : list Listener :=
  match listeners s !! event with
  | Some cbs => cbs
  | None => []
  end.

Definition log (e : Effect) (s : Emitter) : Emitter :=
  mkEmitter (listeners s) (trace s ++ [e]).

Definition on (event : string) (callback : Listener) (s : Emitter) : Emitter :=
  let m := match listeners s !! event with
           | Some _ => listeners s
           | None => <[event := []]> (listeners s)
           end in
  mkEmitter (alter (fun cbs => cbs ++ [callback]) event m) (trace s).

(** [callbacks.splice(index, 1)] at the first index holding the callback. *)
Fixpoint remove_first (id : nat) (cbs : list Listener) : list Listener :=
  match cbs with
  | [] => []
  | cb :: rest => if Nat.eqb (l_id cb) id then rest else cb :: remove_first id rest
  end.

Definition off (event : string) (callback_id : nat) (s : Emitter) : Emitter :=
  match listeners s !! event with
  | Some _ => mkEmitter (alter (remove_first callback_id) event (listeners s)) (trace s)
  | None => s
  end.

Definition run_command (s : Emitter) (c : Command) : Emitter :=
  match c with
  | CallOn event callback => on event callback s
  | CallOff event callback_id => off event callback_id s
  end.

(** [callback(data)] inside the [try]: the listener's calls take effect
    whether it then returns or throws; a throw is logged by the [catch]. *)
Definition invoke (event : string) (data : Payload) (cb : Listener) (s : Emitter) : Emitter :=
  let s1 := log (Invoked event (l_id cb) data) s in
  let s2 := fold_left run_command (fst (l_run cb data)) s1 in
  match snd (l_run cb data) with
  | Returns => s2
  | Throws _ => log (ConsoleError ("Error in event listener for " +:+ event +:+ ":")) s2
  end.

(** [forEach] on the live array: the length is read once, before the first
    call; index [k] is then visited if the array still has it, and what it
    holds at that moment is called. *)
Fixpoint visit (event : string) (data : Payload) (k : nat) (remaining : nat)
         (s : Emitter) : Emitter :=
  match remaining with
  | O => s
  | S remaining' =>
      visit event data (S k) remaining'
        match registered event s !! k with
        | Some cb => invoke event data cb s
        | None => s
        end
  end.

Definition emit (event : string) (data : Payload) (s : Emitter) : Emitter :=
  match listeners s !! event with
  | Some cbs => visit event data 0 (length cbs) s
  | None => s
  end.

(** What a listener leaves in the trace when called. *)
Definition invoke_effects (event : string) (data : Payload) (cb : Listener) : list Effect :=
  Invoked event (l_id cb) data
  :: match snd (l_run cb data) with
     | Returns => []
     | Throws _ => [ConsoleError ("Error in event listener for " +:+ event +:+ ":")]
     end.

(** The listener, handed [data], makes no call of [on] or [off] for
    [event]. *)
Definition leaves_alone (event : string) (data : Payload) (cb : Listener) : Prop :=
  Forall (fun c => command_event c <> event) (fst (l_run cb data)).

(** The passive listener of a [World] that returns or throws as this one
    does. *)
Definition passive (cb : Listener) : Callback :=
  mkCallback (l_id cb) (fun data => snd (l_run cb data)).

(** Sample listeners: one that takes itself off the event 'ready' and then
    throws, one that only returns, one that registers the latter. *)
Definition once_listener : Listener :=
  mkListener 1 (fun _ => ([CallOff "ready" 1%nat], Throws (ErrObj "listener failed"))).

Definition quiet_listener : Listener := mkListener 2 (fun _ => ([], Returns)).

Definition other_listener : Listener := mkListener 3 (fun _ => ([], Returns)).

(** A listener of 'ready' that takes itself off another event. *)
Definition busy_listener : Listener :=
  mkListener 4 (fun _ => ([CallOff "closed" 4%nat], Returns)).

Definition sample_emitter : Emitter :=
  on "ready" other_listener
     (on "ready" quiet_listener (on "ready" once_listener (mkEmitter ∅ []))).

Definition calm_emitter : Emitter :=
  on "ready" other_listener (on "ready" quiet_listener (mkEmitter ∅ [])).

End Live.

(** ** More of the manager: VR sessions *)

(** [this.components[name]]: the entry under a key, [None] when it is
    null or the key is absent. *)
Fixpoint component_named (name : string) (cs : list (string * option Component))
  : option Component :=
  match cs with
  | [] => None
  | (n, c) :: rest => if String.eqb n name then c else component_named name rest
  end.

(** [handleVREnter].  [setData] stands for the method of that name of the
    spatial optimizer: [None] when the object has none, else what the call
    [setData('aggressiveOptimization', true)] does.  The call leaves no
    entry in the trace; whether it throws is what matters to the
    manager. *)
Definition handleVREnter (setData : option outcome) : M unit :=
  effect (ConsoleLog "Entered VR mode") >>
  setPerformanceLevel (VStr "high") >>
  let! cs := gets components in
  match component_named "spatialOptimizer" cs with
  | Some _ =>
      match setData with
      | Some o => call o
      | None => ret tt
      end
  | None => ret tt
  end >>
  emit "vrEntered" PUndefined.

Definition handleVRExit : M unit :=
  effect (ConsoleLog "Exited VR mode") >>
  detectOptimalPerformanceLevel >>
  emit "vrExited" PUndefined.

(** ** More observations *)

(** The levels in order. *)
Definition rank (l : Level) : Z :=
  match l with
  | low => 0
  | medium => 1
  | high => 2
  end.

(** How many times a callback is registered for an event. *)
Definition registrations (event : string) (cb : Callback) (w : World) : nat :=
  length (List.filter (fun c => Nat.eqb (cb_id c) (cb_id cb)) (registered event w)).

(** ** More sample worlds *)

Definition failing_component : Component :=
  mkComponent (Some (fun _ => Throws (ErrObj "component failed"))).

(** A manager whose voice manager throws from [setQualityLevel]; the chat
    manager comes before it, the spatial optimizer after it. *)
Definition fragile_world : World :=
  exec (on "performanceLevelChanged" plain_listener)
       (construct desktop_env
          [("apiClient", None); ("chatManager", Some steady_component);
           ("voiceManager", Some failing_component);
           ("spatialOptimizer", Some steady_component)]).

(** The same manager brought to [low]: the call throws, the level is
    stored. *)
Definition fragile_low_world : World :=
  exec (setPerformanceLevel (VStr "low")) fragile_world.

(** A page whose browser reports neither memory nor core count. *)
Definition anonymous_env : Env :=
  mkEnv (Some "Adreno (TM) 640") None None true (3 # 4).

Definition anonymous_world : World := construct anonymous_env sample_components.

(** * Properties *)

(** ** Bookkeeping on worlds *)

Lemma with_trace_id (w : World) : with_trace (trace w) w = w.
Proof. now destruct w. Qed.

Lemma with_trace_app (w : World) (d1 d2 : list Effect) :
  with_trace (trace (with_trace (trace w ++ d1) w) ++ d2) (with_trace (trace w ++ d1) w)
  = with_trace (trace w ++ (d1 ++ d2)) w.
Proof. destruct w; cbn. now rewrite <- app_assoc. Qed.

Lemma with_trace_nil (w : World) : with_trace (trace w ++ []) w = w.
Proof. rewrite app_nil_r. apply with_trace_id. Qed.

Lemma trace_only_ret {A} (a : A) : trace_only (ret a).
Proof. intros w. exists [], (Normal a). unfold ret. now rewrite with_trace_nil. Qed.

Lemma trace_only_throw {A} (e : ErrorVal) : trace_only (@throw A e).
Proof. intros w. exists [], (Thrown e). unfold throw. now rewrite with_trace_nil. Qed.

Lemma trace_only_effect (e : Effect) : trace_only (effect e).
Proof. intros w. now exists [e], (Normal tt). Qed.

Lemma trace_only_gets {A} (f : World -> A) : trace_only (gets f).
Proof. intros w. exists [], (Normal (f w)). unfold gets. now rewrite with_trace_nil. Qed.

Lemma trace_only_call (o : outcome) : trace_only (call o).
Proof. destruct o; [apply trace_only_ret | apply trace_only_throw]. Qed.

Lemma trace_only_bind {A B} (c : M A) (k : A -> M B) :
  trace_only c -> (forall a, trace_only (k a)) -> trace_only (bind c k).
Proof.
  intros Hc Hk w. destruct (Hc w) as (d & r & E). unfold bind. rewrite E.
  destruct r as [a | e].
  - destruct (Hk a (with_trace (trace w ++ d) w)) as (d' & r' & E').
    exists (d ++ d'), r'. rewrite E'. now rewrite with_trace_app.
  - now exists d, (Thrown e).
Qed.

Create HintDb frame.

#[local] Hint Resolve trace_only_ret trace_only_throw trace_only_effect
  trace_only_gets trace_only_call trace_only_bind : frame.

(** ** The emitter *)

Lemma invokeAll_run (event : string) (data : Payload) (cbs : list Callback) (w : World) :
  invokeAll event data cbs w
  = (with_trace (trace w ++ emit_effects event data cbs) w, Normal tt).
Proof.
  revert w. induction cbs as [| cb rest IH]; intros w.
  - cbn. unfold ret. now rewrite with_trace_nil.
  - cbn [invokeAll]. unfold bind at 1. unfold invoke, bind, effect.
    destruct (cb_run cb data) eqn:R; cbn [ret]; rewrite IH;
      unfold emit_effects; cbn [flat_map]; unfold invoke_effects at 2; rewrite R;
      f_equal; destruct w; cbn; now rewrite <- !app_assoc.
Qed.

Lemma emit_run (event : string) (data : Payload) (w : World) :
  emit event data w
  = (with_trace (trace w ++ emit_effects event data (registered event w)) w, Normal tt).
Proof.
  unfold emit, bind, gets, registered. destruct (listeners w !! event) as [cbs |].
  - apply invokeAll_run.
  - cbn. unfold ret. now rewrite with_trace_nil.
Qed.

Lemma invocations_app (a b : list Effect) :
  invocations (a ++ b) = invocations a ++ invocations b.
Proof. unfold invocations. apply flat_map_app. Qed.

Lemma quality_calls_app (a b : list Effect) :
  quality_calls (a ++ b) = quality_calls a ++ quality_calls b.
Proof. unfold quality_calls. apply flat_map_app. Qed.

Lemma invocations_emit_effects (event : string) (data : Payload) (cbs : list Callback) :
  invocations (emit_effects event data cbs)
  = map (fun cb => (event, cb_id cb, data)) cbs.
Proof.
  induction cbs as [| cb rest IH]; [reflexivity |].
  unfold emit_effects. cbn [flat_map]. rewrite invocations_app. fold (emit_effects event data rest).
  rewrite IH. unfold invoke_effects. now destruct (cb_run cb data).
Qed.

Lemma quality_calls_emit_effects (event : string) (data : Payload) (cbs : list Callback) :
  quality_calls (emit_effects event data cbs) = [].
Proof.
  induction cbs as [| cb rest IH]; [reflexivity |].
  unfold emit_effects. cbn [flat_map]. rewrite quality_calls_app. fold (emit_effects event data rest).
  rewrite IH. unfold invoke_effects. now destruct (cb_run cb data).
Qed.

Lemma trace_only_emit (event : string) (data : Payload) : trace_only (emit event data).
Proof. intros w. rewrite emit_run. eauto. Qed.

#[local] Hint Resolve trace_only_emit : frame.

(** [on] registers at the end of the event's list. *)
Lemma on_registers_last (event : string) (cb : Callback) (w : World) :
  registered event (exec (on event cb) w) = registered event w ++ [cb].
Proof.
  unfold exec, on, modify, registered. cbn.
  destruct (listeners w !! event) as [cbs |] eqn:E.
  - rewrite lookup_alter_eq, E. reflexivity.
  - rewrite lookup_alter_eq, lookup_insert_eq. reflexivity.
Qed.

(** With the passive listeners of a [World], [emit] calls every listener
    registered for the event, once each and in registration order,
    whichever of them throw: the call returns normally, the calls recorded
    are exactly those of the registered listeners in their order, and
    nothing of the world but the trace is touched. *)
Lemma emit_isolates_passive_listeners (event : string) (data : Payload) (w : World) :
  completion (emit event data) w = Normal tt
  /\ exists d,
       exec (emit event data) w = with_trace (trace w ++ d) w
       /\ invocations d = map (fun cb => (event, cb_id cb, data)) (registered event w).
Proof.
  unfold completion, exec. rewrite emit_run. split; [reflexivity |].
  eexists. split; [reflexivity |]. apply invocations_emit_effects.
Qed.

(** ** [setPerformanceLevel] *)

Lemma level_of_value_name (l : Level) : level_of_value (VStr (level_name l)) = Some l.
Proof. now destruct l. Qed.

(** The strings accepted are exactly the three names. *)
Lemma level_of_value_Some (v : value) (l : Level) :
  level_of_value v = Some l -> v = VStr (level_name l).
Proof.
  destruct v as [| | b | q | s]; cbn; try discriminate.
  destruct (String.eqb_spec s "high") as [-> | _]; [intros [= <-]; reflexivity |].
  destruct (String.eqb_spec s "medium") as [-> | _]; [intros [= <-]; reflexivity |].
  destruct (String.eqb_spec s "low") as [-> | _]; [intros [= <-]; reflexivity |].
  discriminate.
Qed.

Lemma level_of_value_None (v : value) :
  v <> VStr "high" -> v <> VStr "medium" -> v <> VStr "low" -> level_of_value v = None.
Proof.
  intros Hh Hm Hl. destruct (level_of_value v) as [l |] eqn:E; [| reflexivity].
  apply level_of_value_Some in E. destruct l; cbn in E; contradiction.
Qed.

Lemma trace_only_notifyComponents (l : Level) (cs : list (string * option Component)) :
  trace_only (notifyComponents l cs).
Proof.
  induction cs as [| [name [[[f |]] |]] rest IH]; cbn [notifyComponents];
    auto 6 with frame.
Qed.

Lemma trace_only_applyGlobalPerformanceSettings (l : Level) :
  trace_only (applyGlobalPerformanceSettings l).
Proof.
  unfold applyGlobalPerformanceSettings. apply trace_only_bind; [auto with frame |].
  intros e. destruct (sceneRenderer e), (level_eqb l low); auto with frame.
Qed.

#[local] Hint Resolve trace_only_notifyComponents
  trace_only_applyGlobalPerformanceSettings : frame.

(** Whatever the components and listeners do, an accepted call stores the
    level and touches, besides, the trace only. *)
Lemma setPerformanceLevel_frame (v : value) (l : Level) (w : World) :
  level_of_value v = Some l ->
  exists d r, setPerformanceLevel v w = (with_trace (trace w ++ d) (with_level l w), r).
Proof.
  intros E. unfold setPerformanceLevel. rewrite E.
  assert (T : trace_only
                (let! cs := gets components in
                 notifyComponents l cs >>
                 applyGlobalPerformanceSettings l >>
                 effect (ConsoleLog ("Performance level set to: " +:+ level_name l)) >>
                 emit "performanceLevelChanged" (PLevel l)))
    by auto 8 with frame.
  unfold bind at 1. unfold modify.
  destruct (T (with_level l w)) as (d & r & R). rewrite R. now exists d, r.
Qed.

Lemma setPerformanceLevel_level (v : value) (l : Level) (w : World) :
  level_of_value v = Some l ->
  currentPerformanceLevel (exec (setPerformanceLevel v) w) = l.
Proof.
  intros E. destruct (setPerformanceLevel_frame v l w E) as (d & r & R).
  unfold exec. now rewrite R.
Qed.

Lemma setPerformanceLevel_timers (v : value) (w : World) :
  timers (exec (setPerformanceLevel v) w) = timers w.
Proof.
  destruct (level_of_value v) as [l |] eqn:E.
  - destruct (setPerformanceLevel_frame v l w E) as (d & r & R).
    unfold exec. now rewrite R.
  - unfold exec, setPerformanceLevel. now rewrite E.
Qed.

(** *** Components that do not throw *)

Lemma returns_true (o : outcome) : returns o = true -> o = Returns.
Proof. now destruct o. Qed.

Lemma notifyComponents_quiet (l : Level) (cs : list (string * option Component)) (w : World) :
  forallb quiet_entry cs = true ->
  notifyComponents l cs w = (with_trace (trace w ++ quality_effects l cs) w, Normal tt).
Proof.
  revert w. induction cs as [| [name c] rest IH]; intros w Q.
  - cbn. unfold ret. now rewrite with_trace_nil.
  - cbn [forallb] in Q. apply andb_prop in Q as [Qc Qr].
    cbn [notifyComponents]. unfold quality_effects. cbn [flat_map fst snd].
    fold (quality_effects l rest).
    destruct c as [[[f |]] |].
    + assert (F : f l = Returns).
      { unfold quiet_entry in Qc. cbn in Qc.
        apply andb_prop in Qc as [Qhm Ql]. apply andb_prop in Qhm as [Qh Qm].
        destruct l; now apply returns_true. }
      unfold bind at 1. unfold bind at 1. unfold effect. rewrite F. cbn [call ret].
      rewrite IH by exact Qr. f_equal. destruct w; cbn. now rewrite <- app_assoc.
    + unfold bind, ret. now rewrite IH.
    + unfold bind, ret. now rewrite IH.
Qed.

Lemma applyGlobalPerformanceSettings_run (l : Level) (w : World) :
  applyGlobalPerformanceSettings l w
  = (with_trace (trace w ++ renderer_effects l (env w)) w, Normal tt).
Proof.
  unfold applyGlobalPerformanceSettings, renderer_effects, bind, gets.
  destruct (sceneRenderer (env w)), (level_eqb l low);
    unfold effect, ret; rewrite ?with_trace_nil; try reflexivity;
    destruct w; cbn -[Qmin]; rewrite <- ?app_assoc; reflexivity.
Qed.

Lemma setPerformanceLevel_quiet (v : value) (l : Level) (w : World) :
  quiet w = true ->
  level_of_value v = Some l ->
  setPerformanceLevel v w = (with_trace (trace w ++ round l w) (with_level l w), Normal tt).
Proof.
  intros Q E. unfold setPerformanceLevel. rewrite E.
  unfold bind at 1. unfold modify. unfold bind at 1. unfold gets.
  unfold bind at 1. rewrite notifyComponents_quiet by exact Q.
  unfold bind at 1. rewrite applyGlobalPerformanceSettings_run.
  unfold bind at 1. unfold effect. rewrite emit_run.
  f_equal. unfold round, registered. destruct w; cbn. now rewrite <- !app_assoc.
Qed.


(** C2, as stated, fails: handed a value that is none of the three names,
    [setPerformanceLevel] does not fail with an error, it returns normally. *)
Lemma setPerformanceLevel_invalid_does_not_throw :
  level_of_value (VStr "ultra") = None
  /\ completion (setPerformanceLevel (VStr "ultra")) sample_world = Normal tt
  /\ forall e, completion (setPerformanceLevel (VStr "ultra")) sample_world <> Thrown e.
Proof. repeat split. intros e. vm_compute. discriminate. Qed.

(** C2, amended: for every value that is none of the three names,
    [setPerformanceLevel] logs one warning and returns normally; the world
    is otherwise as before: the current level is kept, no component is
    told, no listener is called. *)
Theorem setPerformanceLevel_rejects_invalid (v : value) (w : World) :
  v <> VStr "high" -> v <> VStr "medium" -> v <> VStr "low" ->
  let w' := exec (setPerformanceLevel v) w in
  completion (setPerformanceLevel v) w = Normal tt
  /\ w' = with_trace (trace w ++ [ConsoleWarn "Invalid performance level:"]) w
  /\ currentPerformanceLevel w' = currentPerformanceLevel w
  /\ quality_calls (trace w') = quality_calls (trace w)
  /\ invocations (trace w') = invocations (trace w).
Proof.
  intros Hh Hm Hl. cbn zeta. unfold completion, exec, setPerformanceLevel.
  rewrite (level_of_value_None v Hh Hm Hl). cbn.
  rewrite quality_calls_app, invocations_app. cbn. rewrite !app_nil_r.
  repeat split.
Qed.

Lemma setPerformanceLevel_rejects_invalid_witness :
  (VNum 3 <> VStr "high" /\ VNum 3 <> VStr "medium" /\ VNum 3 <> VStr "low")
  /\ exec (setPerformanceLevel (VNum 3)) sample_world
     = with_trace (trace sample_world ++ [ConsoleWarn "Invalid performance level:"])
                  sample_world.
Proof.
  split; [repeat split; discriminate |].
  apply (setPerformanceLevel_rejects_invalid (VNum 3) sample_world); discriminate.
Defined.

(** ** Notification rounds *)

Lemma quality_effects_cons (l : Level) (name : string) (c : option Component)
      (rest : list (string * option Component)) :
  quality_effects l ((name, c) :: rest)
  = match c with
    | Some {| setQualityLevel := Some _ |} => [QualitySet name l]
    | _ => []
    end ++ quality_effects l rest.
Proof. reflexivity. Qed.

Lemma adjustable_cons (name : string) (c : option Component)
      (rest : list (string * option Component)) :
  adjustable ((name, c) :: rest)
  = match c with
    | Some {| setQualityLevel := Some _ |} => [name]
    | _ => []
    end ++ adjustable rest.
Proof. reflexivity. Qed.

Lemma quality_calls_quality_effects (l : Level) (cs : list (string * option Component)) :
  quality_calls (quality_effects l cs) = map (fun name => (name, l)) (adjustable cs).
Proof.
  induction cs as [| [name c] rest IH]; [reflexivity |].
  rewrite quality_effects_cons, adjustable_cons, quality_calls_app, map_app, IH.
  now destruct c as [[[f |]] |].
Qed.

Lemma invocations_quality_effects (l : Level) (cs : list (string * option Component)) :
  invocations (quality_effects l cs) = [].
Proof.
  induction cs as [| [name c] rest IH]; [reflexivity |].
  rewrite quality_effects_cons, invocations_app, IH.
  now destruct c as [[[f |]] |].
Qed.

Lemma quality_calls_round (l : Level) (w : World) :
  quality_calls (round l w) = map (fun name => (name, l)) (adjustable (components w)).
Proof.
  unfold round. rewrite !quality_calls_app, quality_calls_quality_effects,
    quality_calls_emit_effects.
  unfold renderer_effects.
  destruct (sceneRenderer (env w)), (level_eqb l low); cbn; now rewrite app_nil_r.
Qed.

Lemma invocations_round (l : Level) (w : World) :
  invocations (round l w)
  = map (fun cb => ("performanceLevelChanged", cb_id cb, PLevel l))
        (registered "performanceLevelChanged" w).
Proof.
  unfold round. rewrite !invocations_app, invocations_quality_effects,
    invocations_emit_effects.
  unfold renderer_effects.
  destruct (sceneRenderer (env w)), (level_eqb l low); reflexivity.
Qed.

(** C3, as stated, fails: the manager starts at [high]; two calls
    [setPerformanceLevel('high')] in a row tell the component twice and
    call each listener twice. *)
Lemma setPerformanceLevel_twice_notifies_twice :
  currentPerformanceLevel sample_world = high
  /\ trace sample_world = []
  /\ let w2 := exec (setPerformanceLevel (VStr "high") >>
                     setPerformanceLevel (VStr "high")) sample_world in
     quality_calls (trace w2) = [("chatManager", high); ("chatManager", high)]
     /\ invocations (trace w2)
        = [("performanceLevelChanged", 1%nat, PLevel high);
           ("performanceLevelChanged", 2%nat, PLevel high);
           ("performanceLevelChanged", 1%nat, PLevel high);
           ("performanceLevelChanged", 2%nat, PLevel high)].
Proof. vm_compute. repeat split. Qed.

(** C3, amended: [setPerformanceLevel] does not compare the level with the
    current one.  When no component throws, every call with a valid level
    performs one full notification round (each component that has
    [setQualityLevel] is told once, in order, and each listener of
    [performanceLevelChanged] is called once, in order), so two calls in a
    row perform two rounds; the level they leave is the same. *)
Theorem setPerformanceLevel_notifies_on_every_call (l : Level) (w : World) :
  quiet w = true ->
  let w1 := exec (setPerformanceLevel (VStr (level_name l))) w in
  let w2 := exec (setPerformanceLevel (VStr (level_name l))) w1 in
  trace w1 = trace w ++ round l w
  /\ trace w2 = trace w1 ++ round l w
  /\ quality_calls (round l w) = map (fun name => (name, l)) (adjustable (components w))
  /\ invocations (round l w)
     = map (fun cb => ("performanceLevelChanged", cb_id cb, PLevel l))
           (registered "performanceLevelChanged" w)
  /\ currentPerformanceLevel w1 = l
  /\ currentPerformanceLevel w2 = l.
Proof.
  intros Q. cbn zeta. unfold exec.
  rewrite (setPerformanceLevel_quiet _ l w Q (level_of_value_name l)). cbn [fst].
  rewrite (setPerformanceLevel_quiet _ l (with_trace _ (with_level l w)) Q
             (level_of_value_name l)). cbn [fst].
  repeat split.
  - apply quality_calls_round.
  - apply invocations_round.
Qed.

Lemma setPerformanceLevel_notifies_on_every_call_witness :
  quiet sample_world = true
  /\ trace (exec (setPerformanceLevel (VStr (level_name high)))
                 (exec (setPerformanceLevel (VStr (level_name high))) sample_world))
     = trace (exec (setPerformanceLevel (VStr (level_name high))) sample_world)
       ++ round high sample_world.
Proof.
  split; [reflexivity |].
  apply (setPerformanceLevel_notifies_on_every_call high sample_world). reflexivity.
Defined.

(** ** Stepping down *)

Lemma handleLowPerformance_unfold (w : World) :
  handleLowPerformance w
  = let w' := with_trace (trace w ++ [ConsoleLog "Low performance detected:"]) w in
    match currentPerformanceLevel w with
    | high => setPerformanceLevel (VStr "medium") w'
    | medium => setPerformanceLevel (VStr "low") w'
    | low => (w', Normal tt)
    end.
Proof. destruct w as [[] ? ? ? ? ? ? ?]; reflexivity. Qed.

Lemma handleLowPerformance_level (w : World) :
  currentPerformanceLevel (exec handleLowPerformance w)
  = step_down (currentPerformanceLevel w).
Proof.
  unfold exec. rewrite handleLowPerformance_unfold. cbn zeta.
  destruct (currentPerformanceLevel w) eqn:L; cbn [step_down].
  - apply (setPerformanceLevel_level (VStr "medium") medium). reflexivity.
  - apply (setPerformanceLevel_level (VStr "low") low). reflexivity.
  - cbn. exact L.
Qed.

(** C4: one call of [handleLowPerformance] takes the level one tier down:
    from [high] to exactly [medium], from [medium] to [low]; at [low]
    nothing happens beyond the line logged on entry. *)
Theorem handleLowPerformance_steps_down_one_tier (w : World) :
  let w' := exec handleLowPerformance w in
  currentPerformanceLevel w' = step_down (currentPerformanceLevel w)
  /\ match currentPerformanceLevel w with
     | high => currentPerformanceLevel w' = medium
     | medium => currentPerformanceLevel w' = low
     | low => w' = with_trace (trace w ++ [ConsoleLog "Low performance detected:"]) w
     end.
Proof.
  cbn zeta. split; [apply handleLowPerformance_level |].
  pose proof (handleLowPerformance_level w) as D.
  destruct (currentPerformanceLevel w) eqn:L; cbn [step_down] in D; try exact D.
  unfold exec. rewrite handleLowPerformance_unfold. cbn zeta. now rewrite L.
Qed.

(** ** Device classification *)

Lemma memory_points (memory : Q) :
  (if Qle_bool 8 memory then 3 else if Qle_bool 4 memory then 2 else 1)
  = memory_tier memory.
Proof.
  unfold memory_tier.
  destruct (Qle_bool 8 memory) eqn:E8; destruct (Qle_bool 4 memory) eqn:E4;
    destruct (Qlt_le_dec memory 4) as [L4 | G4];
    destruct (Qlt_le_dec memory 8) as [L8 | G8]; try reflexivity; exfalso;
    try (apply Qle_bool_iff in E8); try (apply Qle_bool_iff in E4);
    try (apply Qle_bool_iff in G4; congruence);
    try (apply Qle_bool_iff in G8; congruence);
    lra.
Qed.

Lemma cpu_points (cores : Z) :
  (if 8 <=? cores then 3 else if 4 <=? cores then 2 else 1) = cpu_tier cores.
Proof.
  unfold cpu_tier.
  destruct (Z.leb_spec 8 cores), (Z.leb_spec 4 cores),
    (Z.ltb_spec cores 4), (Z.ltb_spec cores 8); try reflexivity; lia.
Qed.

(** The score the source accumulates is the sum of the three tiers. *)
Lemma performanceScore_tiers (renderer : string) (memory : Q) (cores : Z) :
  performanceScore renderer memory cores
  = memory_tier memory + cpu_tier cores + gpu_tier (recognizedGPU renderer).
Proof.
  unfold performanceScore. rewrite <- memory_points, <- cpu_points.
  fold (recognizedGPU renderer). unfold gpu_tier.
  destruct (Qle_bool 8 memory), (Qle_bool 4 memory), (8 <=? cores), (4 <=? cores),
    (recognizedGPU renderer); reflexivity.
Qed.

Lemma levelForScore_thresholds (s : Z) :
  levelForScore s
  = level_name (if 7 <=? s then high else if s <=? 4 then low else medium).
Proof. unfold levelForScore. now destruct (7 <=? s), (s <=? 4). Qed.

Lemma score_range (p : DeviceProfile) : 3 <= score p <= 8.
Proof.
  unfold score, memory_tier, cpu_tier, gpu_tier.
  destruct (Qlt_le_dec (memoryGB p) 4), (Qlt_le_dec (memoryGB p) 8),
    (cpuCores p <? 4), (cpuCores p <? 8), (gpuRecognized p); lia.
Qed.

Lemma detectOptimalPerformanceLevel_unfold (w : World) :
  detectOptimalPerformanceLevel w
  = match webgl (env w) with
    | None => (setPerformanceLevel (VStr "low") >> ret tt) w
    | Some renderer =>
        let p := capturedProfile (env w) renderer in
        let s := performanceScore renderer (memoryGB p) (cpuCores p) in
        setPerformanceLevel (VStr (levelForScore s))
          (with_trace (trace w ++ [ConsoleLog ("Auto-detected performance level: "
                                               +:+ levelForScore s +:+ " (score: "
                                               +:+ pretty s +:+ ")")]) w)
    end.
Proof.
  unfold detectOptimalPerformanceLevel. unfold bind at 1. unfold gets.
  destruct (webgl (env w)); reflexivity.
Qed.

(** C1: for every profile the browser can report, the score the manager
    computes is memory tier + cpu tier + gpu tier, the level it derives is
    [high] from 7 points, [low] up to 4 points and [medium] between, and
    this level (always one of the three) is the one
    [detectOptimalPerformanceLevel] makes current. *)
Theorem detectOptimalPerformanceLevel_classifies (w : World) (renderer : string) :
  webgl (env w) = Some renderer ->
  let p := capturedProfile (env w) renderer in
  performanceScore renderer (memoryGB p) (cpuCores p)
  = memory_tier (memoryGB p) + cpu_tier (cpuCores p) + gpu_tier (gpuRecognized p)
  /\ levelForScore (score p) = level_name (classifyDevice p)
  /\ currentPerformanceLevel (exec detectOptimalPerformanceLevel w) = classifyDevice p.
Proof.
  intros G p. split; [| split].
  - apply performanceScore_tiers.
  - apply levelForScore_thresholds.
  - unfold exec. rewrite detectOptimalPerformanceLevel_unfold, G. cbn zeta.
    apply setPerformanceLevel_level.
    rewrite performanceScore_tiers, levelForScore_thresholds.
    apply level_of_value_name.
Qed.

Lemma detectOptimalPerformanceLevel_classifies_witness :
  webgl (env sample_world) = Some "ANGLE (NVIDIA GeForce GTX 1080)"
  /\ currentPerformanceLevel (exec detectOptimalPerformanceLevel sample_world)
     = classifyDevice (capturedProfile (env sample_world) "ANGLE (NVIDIA GeForce GTX 1080)").
Proof.
  split; [reflexivity |].
  apply (detectOptimalPerformanceLevel_classifies sample_world
           "ANGLE (NVIDIA GeForce GTX 1080)"). reflexivity.
Defined.

Example includes_Intel_Iris : includes "Intel Iris Xe Graphics" "Intel Iris" = true.
Proof. reflexivity. Qed.

Example includes_not_GeForce : includes "Mali-G78" "GeForce" = false.
Proof. reflexivity. Qed.

(** The two scenarios of the specification. *)
Example classify_8GB_8cores_recognized :
  classifyDevice (mkProfile 8 8 true) = high /\ score (mkProfile 8 8 true) = 8.
Proof. split; reflexivity. Qed.

Example classify_2GB_2cores_unrecognized :
  classifyDevice (mkProfile 2 2 false) = low /\ score (mkProfile 2 2 false) = 3.
Proof. split; reflexivity. Qed.



(** ** Timers and the event loop *)

Lemma handleGoodPerformance_run (w : World) :
  handleGoodPerformance w
  = (with_timers (timers w ++ [mkTimer (now w + 5000) UpgradeTask])
       (with_trace (trace w ++ [ConsoleLog "Good performance detected:"]) w),
     Normal tt).
Proof. reflexivity. Qed.

Lemma upgrade_unfold (w : World) :
  upgrade w
  = match currentPerformanceLevel w with
    | high => (w, Normal tt)
    | medium => setPerformanceLevel (VStr "high") w
    | low => setPerformanceLevel (VStr "medium") w
    end.
Proof. destruct w as [[] ? ? ? ? ? ? ?]; reflexivity. Qed.

Lemma boostPerformanceTemporarily_unfold (d : Z) (w : World) :
  boostPerformanceTemporarily (Some d) w
  = match currentPerformanceLevel w with
    | high => (w, Normal tt)
    | l => (setPerformanceLevel (VStr "high") >> setTimeout (RevertTask l) d) w
    end.
Proof. destruct w as [[] ? ? ? ? ? ? ?]; reflexivity. Qed.

Lemma to_int32_in_range (d : Z) : 0 <= d < 2147483648 -> Z.max 0 (to_int32 d) = d.
Proof.
  intros H. unfold to_int32. rewrite Z.mod_small by lia.
  destruct (Z.ltb_spec d 2147483648); lia.
Qed.

Lemma boostPerformanceTemporarily_quiet (d : Z) (w : World) :
  quiet w = true ->
  currentPerformanceLevel w <> high ->
  boostPerformanceTemporarily (Some d) w
  = (with_timers (timers w ++ [mkTimer (now w + Z.max 0 (to_int32 d))
                                       (RevertTask (currentPerformanceLevel w))])
       (with_trace (trace w ++ round high w) (with_level high w)),
     Normal tt).
Proof.
  intros Q H. rewrite boostPerformanceTemporarily_unfold.
  destruct (currentPerformanceLevel w) eqn:L; [contradiction | |];
    unfold bind; rewrite (setPerformanceLevel_quiet (VStr "high") high w Q eq_refl);
    reflexivity.
Qed.

(** In a quiet world a due upgrade raises the level by one tier. *)
Lemma fire_upgrade_quiet (t : Z) (w : World) :
  quiet w = true ->
  fire (mkTimer t UpgradeTask) w
  = match currentPerformanceLevel w with
    | high => w
    | l => with_trace (trace w ++ round (step_up l) w) (with_level (step_up l) w)
    end.
Proof.
  intros Q. unfold fire. cbn [task run_task]. rewrite upgrade_unfold.
  destruct (currentPerformanceLevel w) eqn:L; cbn [step_up]; [reflexivity | |].
  - now rewrite (setPerformanceLevel_quiet (VStr "high") high w Q eq_refl).
  - now rewrite (setPerformanceLevel_quiet (VStr "medium") medium w Q eq_refl).
Qed.

(** In a quiet world a due reversion stores the recorded level. *)
Lemma fire_revert_quiet (t : Z) (original : Level) (w : World) :
  quiet w = true ->
  fire (mkTimer t (RevertTask original)) w
  = with_trace (trace w ++ round original w) (with_level original w).
Proof.
  intros Q. unfold fire. cbn [task run_task].
  now rewrite (setPerformanceLevel_quiet _ original w Q (level_of_value_name original)).
Qed.

(** The event loop with one pending timer. *)
Lemma advance_to_single (t : Z) (tm : Timer) (w : World) :
  timers w = [tm] ->
  advance_to t w
  = if due tm <=? t then
      let w' := fire tm (with_now (Z.max (now w) (due tm)) (with_timers [] w)) in
      with_now (Z.max (now w') t) w'
    else with_now (Z.max (now w) t) w.
Proof.
  intros T. unfold advance_to. rewrite T. cbn [length run_due]. rewrite T.
  cbn [pick]. now destruct (due tm <=? t).
Qed.



(** The scenario of the specification: from [high], three low-performance
    reports give [medium], [low], [low]. *)
Example three_low_reports :
  currentPerformanceLevel (exec handleLowPerformance bare_world) = medium
  /\ currentPerformanceLevel
       (exec (handleLowPerformance >> handleLowPerformance) bare_world) = low
  /\ currentPerformanceLevel
       (exec (handleLowPerformance >> handleLowPerformance >> handleLowPerformance)
             bare_world) = low.
Proof. vm_compute. repeat split. Qed.

(** The scenario of the specification: at [low], a boost of 1000 ms makes
    the level [high] at once, and [low] again after 1000 ms. *)
Example boost_and_revert :
  currentPerformanceLevel low_world = low
  /\ currentPerformanceLevel (exec (boostPerformanceTemporarily (Some 1000)) low_world) = high
  /\ currentPerformanceLevel
       (elapse 1000 (exec (boostPerformanceTemporarily (Some 1000)) low_world)) = low.
Proof. vm_compute. repeat split. Qed.





(** *** The event loop runs every due callback *)

Lemma pick_None (ts : list Timer) : pick ts = None -> ts = [].
Proof.
  destruct ts as [| tm rest]; [reflexivity |]. cbn.
  destruct (pick rest) as [[m rest'] |]; [| discriminate].
  now destruct (due tm <=? due m).
Qed.

Lemma pick_Some (ts : list Timer) (tm : Timer) (rest : list Timer) :
  pick ts = Some (tm, rest) ->
  length ts = S (length rest) /\ Forall (fun x => due tm <= due x) ts.
Proof.
  revert tm rest. induction ts as [| a ts IH]; intros tm rest; [discriminate |].
  cbn [pick]. destruct (pick ts) as [[m rest'] |] eqn:P.
  - destruct (IH m rest' eq_refl) as [Len Min].
    destruct (Z.leb_spec (due a) (due m)) as [Le | Gt]; intros [= <- <-].
    + split; [reflexivity |]. constructor; [lia |].
      eapply Forall_impl; [exact Min |]. cbn. intros x Hx. lia.
    + split; [cbn; now rewrite Len |]. constructor; [lia | exact Min].
  - apply pick_None in P. subst ts. intros [= <- <-].
    split; [reflexivity |]. constructor; [lia | constructor].
Qed.

Lemma fire_timers (tm : Timer) (w : World) : timers (fire tm w) = timers w.
Proof.
  assert (R : timers (exec (run_task (task tm)) w) = timers w).
  { destruct (task tm) as [| original]; cbn [run_task].
    - unfold exec. rewrite upgrade_unfold.
      destruct (currentPerformanceLevel w); [reflexivity | |];
        apply setPerformanceLevel_timers.
    - apply setPerformanceLevel_timers. }
  unfold fire. unfold exec in R.
  destruct (run_task (task tm) w) as [w' [[] | e]]; exact R.
Qed.

Lemma run_due_drains (fuel : nat) (t : Z) (w : World) :
  (length (timers w) <= fuel)%nat ->
  Forall (fun tm => t < due tm) (timers (run_due fuel t w)).
Proof.
  revert w. induction fuel as [| fuel IH]; intros w Len.
  - cbn. destruct (timers w); [constructor | cbn in Len; lia].
  - cbn [run_due]. destruct (pick (timers w)) as [[tm rest] |] eqn:P.
    + destruct (pick_Some _ _ _ P) as [L Min].
      destruct (Z.leb_spec (due tm) t) as [Le | Gt].
      * apply IH. rewrite fire_timers. cbn. lia.
      * eapply Forall_impl; [exact Min |]. cbn. intros x Hx. lia.
    + apply pick_None in P. rewrite P. constructor.
Qed.

(** The fuel of [advance_to] is enough: when the clock shows [t], nothing
    due by [t] is left pending. *)
Lemma advance_to_drains (t : Z) (w : World) :
  Forall (fun tm => t < due tm) (timers (advance_to t w)).
Proof. unfold advance_to. cbn [timers with_now]. now apply run_due_drains. Qed.

(** *** Boosts and the timers they leave *)

(** C6, as stated, fails: at [low], a boost of 1000 ms, then
    [setPerformanceLevel('medium')] after 500 ms; when the 1000 ms are over
    the reversion runs all the same and the level is [low], not [medium]. *)
Lemma boost_reverts_over_later_change :
  let w0 := exec (setPerformanceLevel (VStr "low")) bare_world in
  let w1 := exec (boostPerformanceTemporarily (Some 1000)) w0 in
  let w2 := elapse 500 w1 in
  let w3 := exec (setPerformanceLevel (VStr "medium")) w2 in
  let w4 := elapse 500 w3 in
  currentPerformanceLevel w0 = low
  /\ currentPerformanceLevel w1 = high
  /\ now w3 = 500
  /\ currentPerformanceLevel w3 = medium
  /\ now w4 = 1000
  /\ currentPerformanceLevel w4 = low
  /\ currentPerformanceLevel w4 <> medium.
Proof. vm_compute. repeat split. discriminate. Qed.

(** A boost at [high] sets no timer and leaves the world alone. *)
Lemma boostPerformanceTemporarily_at_high (d : option Z) (w : World) :
  currentPerformanceLevel w = high ->
  boostPerformanceTemporarily d w = (w, Normal tt).
Proof. destruct w as [[] ? ? ? ? ? ? ?]; cbn; intros [=]; reflexivity. Qed.

Lemma fire_revert_stores (t : Z) (original : Level) (w : World) :
  currentPerformanceLevel (fire (mkTimer t (RevertTask original)) w) = original.
Proof.
  unfold fire. cbn [task run_task].
  pose proof (setPerformanceLevel_level _ original w (level_of_value_name original)) as L.
  unfold exec in L.
  destruct (setPerformanceLevel (VStr (level_name original)) w) as [w' [[] | e]]; exact L.
Qed.

(** A boost below [high] stores [high]; it sets its timer if
    [setPerformanceLevel('high')] returns, and none if that call throws. *)
Lemma boostPerformanceTemporarily_cases (d : Z) (w : World) :
  currentPerformanceLevel w <> high ->
  exists d0,
    boostPerformanceTemporarily (Some d) w
    = (with_timers (timers w ++ [mkTimer (now w + Z.max 0 (to_int32 d))
                                         (RevertTask (currentPerformanceLevel w))])
         (with_trace (trace w ++ d0) (with_level high w)),
       Normal tt)
    \/ exists e,
         boostPerformanceTemporarily (Some d) w
         = (with_trace (trace w ++ d0) (with_level high w), Thrown e).
Proof.
  intros H. rewrite boostPerformanceTemporarily_unfold.
  destruct (setPerformanceLevel_frame (VStr "high") high w eq_refl) as (d0 & r & R).
  exists d0.
  destruct (currentPerformanceLevel w) eqn:L; [contradiction | |];
    unfold bind; rewrite R; destruct r as [[] | e];
    first [left; reflexivity | right; exists e; reflexivity].
Qed.

Lemma boostPerformanceTemporarily_returns_when_quiet (d : Z) (w : World) :
  quiet w = true ->
  completion (boostPerformanceTemporarily (Some d)) w = Normal tt.
Proof.
  intros Q. unfold completion.
  destruct (currentPerformanceLevel w) eqn:L.
  - now rewrite boostPerformanceTemporarily_at_high.
  - rewrite boostPerformanceTemporarily_quiet; [reflexivity | exact Q | congruence].
  - rewrite boostPerformanceTemporarily_quiet; [reflexivity | exact Q | congruence].
Qed.

(** C6, amended: the reversion of a boost is never skipped.  Take a boost
    of duration [d], below 2^31 ms, started at a level other than [high]
    with no other timer pending, whose call returns normally (no component
    throws on 'high'), and a [setPerformanceLevel(X)] before [d] is over:
    once [d] is over the level is the one the boost started from, whatever
    [X] was. *)
Theorem boost_reverts_to_original_level (w : World) (d t : Z) (X : Level) :
  timers w = [] ->
  currentPerformanceLevel w <> high ->
  completion (boostPerformanceTemporarily (Some d)) w = Normal tt ->
  0 <= t < d ->
  d < 2147483648 ->
  let w1 := exec (boostPerformanceTemporarily (Some d)) w in
  let w2 := elapse t w1 in
  let w3 := exec (setPerformanceLevel (VStr (level_name X))) w2 in
  let w4 := advance_to (now w + d) w3 in
  currentPerformanceLevel w1 = high
  /\ currentPerformanceLevel w3 = X
  /\ timers w3 = [mkTimer (now w + d) (RevertTask (currentPerformanceLevel w))]
  /\ currentPerformanceLevel w4 = currentPerformanceLevel w
  /\ timers w4 = [].
Proof.
  intros T H C Ht Hd w1 w2 w3 w4.
  set (tm := mkTimer (now w + d) (RevertTask (currentPerformanceLevel w))).
  destruct (boostPerformanceTemporarily_cases d w H) as (d0 & [E | [e E]]);
    [| unfold completion in C; rewrite E in C; discriminate].
  assert (E1 : w1 = with_timers [tm] (with_trace (trace w ++ d0) (with_level high w))).
  { unfold w1, exec. rewrite E. cbn [fst].
    rewrite T. unfold tm. now rewrite to_int32_in_range by lia. }
  assert (E2 : w2 = with_now (now w + t) w1).
  { unfold w2, elapse. rewrite (advance_to_single _ tm) by (rewrite E1; reflexivity).
    rewrite E1. cbn [due tm now with_timers with_trace with_level].
    destruct (Z.leb_spec (now w + d) (now w + t)) as [? | _]; [lia |].
    f_equal. lia. }
  assert (T3 : timers w3 = [tm]).
  { unfold w3. rewrite setPerformanceLevel_timers. now rewrite E2, E1. }
  assert (L3 : currentPerformanceLevel w3 = X).
  { unfold w3. apply setPerformanceLevel_level, level_of_value_name. }
  assert (E4 : w4 = let w' := fire tm (with_now (Z.max (now w3) (now w + d))
                                                (with_timers [] w3)) in
                    with_now (Z.max (now w') (now w + d)) w').
  { unfold w4. rewrite (advance_to_single _ _ w3 T3). cbn [due tm].
    now rewrite Z.leb_refl. }
  split; [now rewrite E1 |]. split; [exact L3 |]. split; [exact T3 |].
  rewrite E4. cbn zeta. clearbody w3 w4. unfold tm. split.
  - exact (fire_revert_stores _ _ (with_now _ (with_timers [] w3))).
  - exact (fire_timers _ (with_now _ (with_timers [] w3))).
Qed.

Lemma boost_reverts_to_original_level_witness :
  (timers low_world = []
   /\ currentPerformanceLevel low_world <> high
   /\ completion (boostPerformanceTemporarily (Some 1000)) low_world = Normal tt
   /\ 0 <= 500 < 1000 /\ 1000 < 2147483648)
  /\ currentPerformanceLevel
       (advance_to (now low_world + 1000)
          (exec (setPerformanceLevel (VStr (level_name medium)))
             (elapse 500 (exec (boostPerformanceTemporarily (Some 1000)) low_world))))
     = currentPerformanceLevel low_world.
Proof.
  split; [repeat split; first [discriminate | lia] |].
  apply (boost_reverts_to_original_level low_world 1000 500 medium);
    [reflexivity | discriminate | reflexivity | lia | lia].
Defined.

(** C7, as stated, fails: two good-performance reports leave two upgrade
    timers pending, and two boosts with a level change between them leave
    two reversion timers pending. *)
Lemma timers_of_one_kind_accumulate :
  pending_upgrades (exec (handleGoodPerformance >> handleGoodPerformance) bare_world)
  = [mkTimer 5000 UpgradeTask; mkTimer 5000 UpgradeTask]
  /\ pending_reverts
       (exec (handleLowPerformance >> boostPerformanceTemporarily (Some 1000) >>
              handleLowPerformance >> boostPerformanceTemporarily (Some 2000)) bare_world)
     = [mkTimer 1000 (RevertTask medium); mkTimer 2000 (RevertTask medium)].
Proof. vm_compute. split; reflexivity. Qed.

(** C7, amended: timers are set and never cancelled.  Every
    good-performance report adds one upgrade timer to those pending.  A
    boost started at a level other than [high] adds one reversion timer to
    those pending when its call returns normally, as it does when no
    component throws (the timer is due [d] ms later for [d] from 0 to
    below 2^31), and none when [setPerformanceLevel('high')] throws; the
    timers pending before stay pending in each case. *)
Theorem timers_are_added_never_cancelled (w : World) (d : Z) :
  timers (exec handleGoodPerformance w)
  = timers w ++ [mkTimer (now w + 5000) UpgradeTask]
  /\ (currentPerformanceLevel w <> high ->
      match completion (boostPerformanceTemporarily (Some d)) w with
      | Normal _ =>
          exists due_time,
            timers (exec (boostPerformanceTemporarily (Some d)) w)
            = timers w ++ [mkTimer due_time (RevertTask (currentPerformanceLevel w))]
            /\ (0 <= d < 2147483648 -> due_time = now w + d)
      | Thrown _ => timers (exec (boostPerformanceTemporarily (Some d)) w) = timers w
      end)
  /\ (quiet w = true ->
      completion (boostPerformanceTemporarily (Some d)) w = Normal tt).
Proof.
  split; [| split].
  - unfold exec. now rewrite handleGoodPerformance_run.
  - intros H. unfold completion, exec.
    destruct (boostPerformanceTemporarily_cases d w H) as (d0 & [E | [e E]]); rewrite E.
    + cbn [fst snd]. eexists. split; [reflexivity |].
      intros R. now rewrite to_int32_in_range.
    + reflexivity.
  - apply boostPerformanceTemporarily_returns_when_quiet.
Qed.

Lemma timers_are_added_never_cancelled_witness :
  (currentPerformanceLevel medium_world <> high /\ quiet medium_world = true
   /\ currentPerformanceLevel fragile_low_world <> high)
  /\ timers (exec handleGoodPerformance medium_world)
     = timers medium_world ++ [mkTimer (now medium_world + 5000) UpgradeTask]
  /\ completion (boostPerformanceTemporarily (Some 1000)) medium_world = Normal tt
  /\ match completion (boostPerformanceTemporarily (Some 1000)) medium_world with
     | Normal _ =>
         exists due_time,
           timers (exec (boostPerformanceTemporarily (Some 1000)) medium_world)
           = timers medium_world
             ++ [mkTimer due_time (RevertTask (currentPerformanceLevel medium_world))]
           /\ (0 <= 1000 < 2147483648 -> due_time = now medium_world + 1000)
     | Thrown _ =>
         timers (exec (boostPerformanceTemporarily (Some 1000)) medium_world)
         = timers medium_world
     end
  /\ match completion (boostPerformanceTemporarily (Some 1000)) fragile_low_world with
     | Normal _ =>
         exists due_time,
           timers (exec (boostPerformanceTemporarily (Some 1000)) fragile_low_world)
           = timers fragile_low_world
             ++ [mkTimer due_time (RevertTask (currentPerformanceLevel fragile_low_world))]
           /\ (0 <= 1000 < 2147483648 -> due_time = now fragile_low_world + 1000)
     | Thrown _ =>
         timers (exec (boostPerformanceTemporarily (Some 1000)) fragile_low_world)
         = timers fragile_low_world
     end.
Proof.
  split; [repeat split; discriminate |].
  destruct (timers_are_added_never_cancelled medium_world 1000) as (G & B & N).
  destruct (timers_are_added_never_cancelled fragile_low_world 1000) as (_ & B' & _).
  split; [exact G |]. split; [apply N; reflexivity |].
  split; [apply B; discriminate | apply B'; discriminate].
Defined.

(** ** Error recovery *)

Lemma recoverFromError_unfold (message : string) (w : World) :
  recoverFromError (ErrObj message) w
  = let w1 := if includes message "voice" || includes message "audio"
              then with_trace (trace w ++ [ConsoleLog "Disabled voice optimizations due to error"])
                              (with_voice false w)
              else w in
    match currentPerformanceLevel w with
    | high => setPerformanceLevel (VStr "medium") w1
    | _ => (w1, Normal tt)
    end.
Proof.
  unfold recoverFromError, message_of. unfold bind at 1. unfold ret at 1.
  unfold bind at 1.
  destruct (includes message "voice" || includes message "audio");
    destruct w as [[] ? ? ? ? ? ? ?]; reflexivity.
Qed.

Lemma handleGlobalError_unfold (error : ErrorVal) (w : World) :
  handleGlobalError error w
  = recoverFromError error
      (with_trace (trace w ++ ConsoleError "Global error:"
                           :: emit_effects "globalError" (PError error)
                                           (registered "globalError" w)) w).
Proof.
  unfold handleGlobalError, bind, effect. rewrite emit_run.
  f_equal. unfold registered. destruct w; cbn. now rewrite <- app_assoc.
Qed.

(** For an error that carries a string message the recovery does what it
    is meant to: [high] becomes [medium], other levels stay. *)
Lemma handleGlobalError_with_message (message : string) (w : World) :
  currentPerformanceLevel (exec (handleGlobalError (ErrObj message)) w)
  = match currentPerformanceLevel w with
    | high => medium
    | l => l
    end.
Proof.
  unfold exec. rewrite handleGlobalError_unfold, recoverFromError_unfold. cbn zeta.
  set (w0 := with_trace _ w).
  change (currentPerformanceLevel w0) with (currentPerformanceLevel w).
  destruct (currentPerformanceLevel w) eqn:L.
  - apply (setPerformanceLevel_level (VStr "medium") medium). reflexivity.
  - destruct (includes message "voice" || includes message "audio"); cbn; exact L.
  - destruct (includes message "voice" || includes message "audio"); cbn; exact L.
Qed.

(** An error value without a string message makes the recovery itself
    throw a TypeError before it looks at the level. *)
Lemma handleGlobalError_without_message (w : World) :
  currentPerformanceLevel (exec (handleGlobalError ErrNull) w) = currentPerformanceLevel w
  /\ currentPerformanceLevel (exec (handleGlobalError ErrOpaque) w) = currentPerformanceLevel w
  /\ (exists e, completion (handleGlobalError ErrNull) w = Thrown e)
  /\ (exists e, completion (handleGlobalError ErrOpaque) w = Thrown e).
Proof.
  unfold exec, completion. rewrite !handleGlobalError_unfold.
  repeat split; eexists; reflexivity.
Qed.

(** C10 fails on the code: a global error event whose [error] is null
    (as for an error in a cross-origin script) reaches the manager at
    [high]; the recovery throws on [error.message] and the level stays
    [high] instead of going to [medium]. *)
Theorem handleGlobalError_null_error_keeps_high :
  currentPerformanceLevel bare_world = high
  /\ currentPerformanceLevel (exec (handleGlobalError ErrNull) bare_world) = high
  /\ completion (handleGlobalError ErrNull) bare_world
     = Thrown (ErrObj "TypeError: Cannot read properties of null (reading 'message')")
  /\ currentPerformanceLevel (exec (handleGlobalError (ErrObj "Script error.")) bare_world)
     = medium.
Proof. vm_compute. repeat split. Qed.

(** ** The emitter with listeners that call back *)

Lemma live_registered_on (event : string) (cb : Live.Listener) (s : Live.Emitter) :
  Live.registered event (Live.on event cb s) = Live.registered event s ++ [cb].
Proof.
  unfold Live.on, Live.registered. cbn.
  destruct (Live.listeners s !! event) as [cbs |] eqn:E.
  - now rewrite lookup_alter_eq, E.
  - now rewrite lookup_alter_eq, lookup_insert_eq.
Qed.

Lemma live_registered_on_other (event other : string) (cb : Live.Listener) (s : Live.Emitter) :
  event <> other ->
  Live.registered other (Live.on event cb s) = Live.registered other s.
Proof.
  intros N. unfold Live.on, Live.registered. cbn.
  rewrite lookup_alter_ne by exact N.
  destruct (Live.listeners s !! event); [reflexivity |].
  now rewrite lookup_insert_ne by exact N.
Qed.

Lemma live_registered_off (event : string) (id : nat) (s : Live.Emitter) :
  Live.registered event (Live.off event id s)
  = Live.remove_first id (Live.registered event s).
Proof.
  unfold Live.off, Live.registered.
  destruct (Live.listeners s !! event) as [cbs |] eqn:E; cbn.
  - now rewrite lookup_alter_eq, E.
  - now rewrite E.
Qed.

Lemma live_registered_off_other (event other : string) (id : nat) (s : Live.Emitter) :
  event <> other ->
  Live.registered other (Live.off event id s) = Live.registered other s.
Proof.
  intros N. unfold Live.off, Live.registered.
  destruct (Live.listeners s !! event); cbn; [| reflexivity].
  now rewrite lookup_alter_ne by exact N.
Qed.

Lemma live_trace_run_command (s : Live.Emitter) (c : Live.Command) :
  Live.trace (Live.run_command s c) = Live.trace s.
Proof.
  destruct c as [event cb | event id]; cbn; [reflexivity |].
  unfold Live.off. now destruct (Live.listeners s !! event).
Qed.

(** Calls of [on] and [off] for other events leave the listeners of this
    one, and the trace, as they are. *)
Lemma live_run_commands_elsewhere (event : string) (cmds : list Live.Command)
      (s : Live.Emitter) :
  Forall (fun c => Live.command_event c <> event) cmds ->
  Live.registered event (fold_left Live.run_command cmds s) = Live.registered event s
  /\ Live.trace (fold_left Live.run_command cmds s) = Live.trace s.
Proof.
  intros A. revert s. induction A as [| c cmds Hc _ IH]; intros s; [now split |].
  cbn [fold_left]. destruct (IH (Live.run_command s c)) as [R T].
  rewrite R, T, live_trace_run_command. split; [| reflexivity].
  destruct c as [e cb | e id]; cbn in *.
  - now apply live_registered_on_other.
  - now apply live_registered_off_other.
Qed.

Lemma live_trace_run_commands (cmds : list Live.Command) (s : Live.Emitter) :
  Live.trace (fold_left Live.run_command cmds s) = Live.trace s.
Proof.
  revert s. induction cmds as [| c cmds IH]; intros s; [reflexivity |].
  cbn [fold_left]. now rewrite IH, live_trace_run_command.
Qed.

Lemma live_trace_invoke (event : string) (data : Payload) (cb : Live.Listener)
      (s : Live.Emitter) :
  Live.trace (Live.invoke event data cb s)
  = Live.trace s ++ Live.invoke_effects event data cb.
Proof.
  unfold Live.invoke, Live.invoke_effects.
  destruct (snd (Live.l_run cb data)); cbn; rewrite live_trace_run_commands; cbn;
    [reflexivity | now rewrite <- app_assoc].
Qed.

Lemma live_invoke_leaves_alone (event : string) (data : Payload) (cb : Live.Listener)
      (s : Live.Emitter) :
  Live.leaves_alone event data cb ->
  Live.registered event (Live.invoke event data cb s) = Live.registered event s.
Proof.
  intros A. unfold Live.invoke.
  destruct (live_run_commands_elsewhere event _
              (Live.log (Invoked event (Live.l_id cb) data) s) A) as [R _].
  destruct (snd (Live.l_run cb data)); exact R.
Qed.

(** Walking a list that no listener on it touches: the indices from [k]
    on are called in order, as far as the count and the list reach. *)
Lemma live_visit_stable (event : string) (data : Payload) (n k : nat) (s : Live.Emitter) :
  Forall (Live.leaves_alone event data) (Live.registered event s) ->
  Live.registered event (Live.visit event data k n s) = Live.registered event s
  /\ Live.trace (Live.visit event data k n s)
     = Live.trace s
       ++ flat_map (Live.invoke_effects event data)
                   (take n (drop k (Live.registered event s))).
Proof.
  revert k s. induction n as [| n IH]; intros k s A.
  - cbn. rewrite take_0. cbn. now rewrite app_nil_r.
  - cbn [Live.visit]. destruct (Live.registered event s !! k) as [cb |] eqn:E.
    + assert (Hcb : Live.leaves_alone event data cb).
      { rewrite Forall_forall in A. apply A. now apply list_elem_of_lookup_2 in E. }
      pose proof (live_invoke_leaves_alone event data cb s Hcb) as R.
      assert (A' : Forall (Live.leaves_alone event data)
                          (Live.registered event (Live.invoke event data cb s)))
        by now rewrite R.
      destruct (IH (S k) _ A') as [R' T'].
      rewrite R', T', R, live_trace_invoke. split; [reflexivity |].
      rewrite (drop_S _ _ _ E). cbn [take flat_map]. now rewrite <- app_assoc.
    + destruct (IH (S k) s A) as [R' T']. rewrite R', T'. split; [reflexivity |].
      apply lookup_ge_None in E.
      rewrite !drop_ge by lia. now rewrite !take_nil.
Qed.

Lemma live_emit_stable (event : string) (data : Payload) (s : Live.Emitter) :
  Forall (Live.leaves_alone event data) (Live.registered event s) ->
  Live.registered event (Live.emit event data s) = Live.registered event s
  /\ Live.trace (Live.emit event data s)
     = Live.trace s ++ flat_map (Live.invoke_effects event data) (Live.registered event s).
Proof.
  intros A. unfold Live.emit.
  destruct (Live.listeners s !! event) as [cbs |] eqn:E.
  - destruct (live_visit_stable event data (length cbs) 0 s A) as [R T].
    split; [exact R |]. rewrite T. unfold Live.registered. rewrite E.
    now rewrite drop_0, firstn_all.
  - split; [reflexivity |]. unfold Live.registered. rewrite E. cbn. now rewrite app_nil_r.
Qed.

Lemma invocations_live_effects (event : string) (data : Payload) (cbs : list Live.Listener) :
  invocations (flat_map (Live.invoke_effects event data) cbs)
  = map (fun cb => (event, Live.l_id cb, data)) cbs.
Proof.
  induction cbs as [| cb cbs IH]; [reflexivity |].
  cbn [flat_map map]. rewrite invocations_app, IH. unfold Live.invoke_effects.
  now destruct (snd (Live.l_run cb data)).
Qed.

Lemma emit_effects_passive (event : string) (data : Payload) (cbs : list Live.Listener) :
  emit_effects event data (map Live.passive cbs)
  = flat_map (Live.invoke_effects event data) cbs.
Proof.
  induction cbs as [| cb cbs IH]; [reflexivity |].
  unfold emit_effects in *. cbn [map flat_map]. rewrite IH. reflexivity.
Qed.

(** On listeners that make no calls for the event the two models of [emit]
    write the same lines. *)
Lemma emit_agrees_with_live (event : string) (data : Payload) (w : World) (s : Live.Emitter) :
  registered event w = map Live.passive (Live.registered event s) ->
  Forall (Live.leaves_alone event data) (Live.registered event s) ->
  exists d,
    trace (exec (emit event data) w) = trace w ++ d
    /\ Live.trace (Live.emit event data s) = Live.trace s ++ d.
Proof.
  intros R A. destruct (live_emit_stable event data s A) as [_ T].
  exists (flat_map (Live.invoke_effects event data) (Live.registered event s)).
  split; [| exact T].
  unfold exec. rewrite emit_run. cbn [fst trace with_trace]. f_equal. rewrite R.
  apply emit_effects_passive.
Qed.




(** * Further properties *)

(** ** Registering and removing listeners *)

Lemma registered_on_other (event other : string) (cb : Callback) (w : World) :
  event <> other -> registered other (exec (on event cb) w) = registered other w.
Proof.
  intros N. unfold exec, on, modify, registered. cbn.
  rewrite lookup_alter_ne by exact N.
  destruct (listeners w !! event); [reflexivity |].
  now rewrite lookup_insert_ne by exact N.
Qed.

Lemma registered_off (event : string) (cb : Callback) (w : World) :
  registered event (exec (off event cb) w) = remove_first (cb_id cb) (registered event w).
Proof.
  unfold exec, off, modify, registered. cbn.
  destruct (listeners w !! event) as [cbs |] eqn:E; cbn.
  - now rewrite lookup_alter_eq, E.
  - now rewrite E.
Qed.

Lemma registered_off_other (event other : string) (cb : Callback) (w : World) :
  event <> other -> registered other (exec (off event cb) w) = registered other w.
Proof.
  intros N. unfold exec, off, modify, registered. cbn.
  destruct (listeners w !! event); cbn; [| reflexivity].
  now rewrite lookup_alter_ne by exact N.
Qed.

Lemma remove_first_absent (id : nat) (cbs : list Callback) :
  Forall (fun c => cb_id c <> id) cbs -> remove_first id cbs = cbs.
Proof.
  induction 1 as [| c cbs Hc _ IH]; [reflexivity |]. cbn.
  destruct (Nat.eqb_spec (cb_id c) id); [contradiction | now rewrite IH].
Qed.

Lemma remove_first_last (id : nat) (cbs : list Callback) (cb : Callback) :
  cb_id cb = id ->
  Forall (fun c => cb_id c <> id) cbs ->
  remove_first id (cbs ++ [cb]) = cbs.
Proof.
  intros I. induction 1 as [| c cbs Hc _ IH]; cbn.
  - now rewrite I, Nat.eqb_refl.
  - destruct (Nat.eqb_spec (cb_id c) id); [contradiction | now rewrite IH].
Qed.

(** X1: Registering a listener, among listeners that make no call of
    [on] or [off] for the event while it is dispatched, adds exactly one
    call to what [emit] does for that event, after the calls of the
    listeners that were there. *)
Theorem on_then_emit_calls_new_listener_last
    (event : string) (cb : Live.Listener) (data : Payload) (s : Live.Emitter) :
  Forall (Live.leaves_alone event data) (Live.registered event s) ->
  Live.leaves_alone event data cb ->
  invocations (Live.trace (Live.emit event data (Live.on event cb s)))
  = invocations (Live.trace (Live.emit event data s)) ++ [(event, Live.l_id cb, data)].
Proof.
  intros A C.
  assert (A' : Forall (Live.leaves_alone event data)
                      (Live.registered event (Live.on event cb s))).
  { rewrite live_registered_on. apply Forall_app. split; [exact A | now constructor]. }
  destruct (live_emit_stable event data s A) as [_ T].
  destruct (live_emit_stable event data _ A') as [_ T'].
  rewrite T, T', live_registered_on.
  change (Live.trace (Live.on event cb s)) with (Live.trace s).
  rewrite flat_map_app, !invocations_app, !invocations_live_effects.
  cbn [map]. now rewrite <- app_assoc.
Qed.

Lemma on_then_emit_calls_new_listener_last_witness :
  (Forall (Live.leaves_alone "ready" PUndefined) (Live.registered "ready" Live.calm_emitter)
   /\ Live.leaves_alone "ready" PUndefined Live.busy_listener)
  /\ invocations (Live.trace (Live.emit "ready" PUndefined
                                (Live.on "ready" Live.busy_listener Live.calm_emitter)))
     = invocations (Live.trace (Live.emit "ready" PUndefined Live.calm_emitter))
       ++ [("ready", Live.l_id Live.busy_listener, PUndefined)].
Proof.
  assert (A : Forall (Live.leaves_alone "ready" PUndefined)
                     (Live.registered "ready" Live.calm_emitter)).
  { repeat constructor. }
  assert (C : Live.leaves_alone "ready" PUndefined Live.busy_listener).
  { repeat constructor. discriminate. }
  split; [split; [exact A | exact C] |].
  exact (on_then_emit_calls_new_listener_last "ready" Live.busy_listener PUndefined
           Live.calm_emitter A C).
Defined.

(** X2: [on] and [off] act on the list of their own event only. *)
Theorem on_off_leave_other_events (event other : string) (cb : Callback) (w : World) :
  event <> other ->
  registered other (exec (on event cb) w) = registered other w
  /\ registered other (exec (off event cb) w) = registered other w.
Proof.
  intros N. split; [now apply registered_on_other | now apply registered_off_other].
Qed.

Lemma on_off_leave_other_events_witness :
  "globalError" <> "performanceLevelChanged"
  /\ registered "performanceLevelChanged" (exec (on "globalError" plain_listener) sample_world)
     = registered "performanceLevelChanged" sample_world
  /\ registered "performanceLevelChanged" (exec (off "globalError" plain_listener) sample_world)
     = registered "performanceLevelChanged" sample_world.
Proof.
  split; [discriminate |].
  apply (on_off_leave_other_events "globalError" "performanceLevelChanged"
           plain_listener sample_world).
  discriminate.
Defined.

(** X3: [off] for a callback that is not registered for the event (or for an
    event nobody listens to) leaves the manager exactly as it was. *)
Theorem off_unregistered_is_noop (event : string) (cb : Callback) (w : World) :
  Forall (fun c => cb_id c <> cb_id cb) (registered event w) ->
  off event cb w = (w, Normal tt).
Proof.
  intros A. unfold off, modify, registered in *.
  destruct (listeners w !! event) as [cbs |] eqn:E; [| reflexivity].
  f_equal.
  assert (R : alter (remove_first (cb_id cb)) event (listeners w) = listeners w).
  { apply map_eq. intros k. destruct (decide (event = k)) as [<- | N].
    - rewrite lookup_alter_eq, E. cbn. now rewrite remove_first_absent.
    - now rewrite lookup_alter_ne. }
  rewrite R. now destruct w.
Qed.

Lemma off_unregistered_is_noop_witness :
  Forall (fun c => cb_id c <> cb_id (mkCallback 7 (fun _ => Returns)))
         (registered "performanceLevelChanged" sample_world)
  /\ off "performanceLevelChanged" (mkCallback 7 (fun _ => Returns)) sample_world
     = (sample_world, Normal tt).
Proof.
  assert (A : Forall (fun c => cb_id c <> cb_id (mkCallback 7 (fun _ => Returns)))
                     (registered "performanceLevelChanged" sample_world)).
  { repeat constructor; discriminate. }
  split; [exact A |].
  exact (off_unregistered_is_noop "performanceLevelChanged"
           (mkCallback 7 (fun _ => Returns)) sample_world A).
Defined.

(** X4: Round trip: registering a callback that is not registered yet and
    removing it again gives back the list of listeners of the event. *)
Theorem on_then_off_restores_listeners (event : string) (cb : Callback) (w : World) :
  Forall (fun c => cb_id c <> cb_id cb) (registered event w) ->
  registered event (exec (off event cb) (exec (on event cb) w)) = registered event w.
Proof.
  intros A. rewrite registered_off, on_registers_last.
  now apply remove_first_last.
Qed.

Lemma on_then_off_restores_listeners_witness :
  Forall (fun c => cb_id c <> cb_id (mkCallback 7 (fun _ => Returns)))
         (registered "performanceLevelChanged" sample_world)
  /\ registered "performanceLevelChanged"
       (exec (off "performanceLevelChanged" (mkCallback 7 (fun _ => Returns)))
          (exec (on "performanceLevelChanged" (mkCallback 7 (fun _ => Returns))) sample_world))
     = registered "performanceLevelChanged" sample_world.
Proof.
  assert (A : Forall (fun c => cb_id c <> cb_id (mkCallback 7 (fun _ => Returns)))
                     (registered "performanceLevelChanged" sample_world)).
  { repeat constructor; discriminate. }
  split; [exact A |].
  exact (on_then_off_restores_listeners "performanceLevelChanged"
           (mkCallback 7 (fun _ => Returns)) sample_world A).
Defined.

Lemma filter_remove_first (id : nat) (cbs : list Callback) :
  length (List.filter (fun c => Nat.eqb (cb_id c) id) (remove_first id cbs))
  = Nat.pred (length (List.filter (fun c => Nat.eqb (cb_id c) id) cbs)).
Proof.
  induction cbs as [| c cbs IH]; [reflexivity |]. cbn.
  destruct (Nat.eqb (cb_id c) id) eqn:E; [reflexivity |].
  cbn. now rewrite E.
Qed.

(** X5: [on] does not check for duplicates and [off] removes one registration,
    not all: each [on] raises the number of registrations of the callback
    by one, each [off] lowers it by one (none left: nothing to remove). *)
Theorem on_adds_one_off_removes_one (event : string) (cb : Callback) (w : World) :
  registrations event cb (exec (on event cb) w) = S (registrations event cb w)
  /\ registrations event cb (exec (off event cb) w) = Nat.pred (registrations event cb w).
Proof.
  unfold registrations. split.
  - rewrite on_registers_last, List.filter_app, length_app. cbn.
    rewrite Nat.eqb_refl. cbn. lia.
  - rewrite registered_off. apply filter_remove_first.
Qed.

(** ** A component that throws *)

Lemma notifyComponents_throwing (l : Level) (pre post : list (string * option Component))
      (name : string) (f : Level -> outcome) (e : ErrorVal) (w : World) :
  forallb quiet_entry pre = true ->
  f l = Throws e ->
  notifyComponents l (pre ++ (name, Some (mkComponent (Some f))) :: post) w
  = (with_trace (trace w ++ quality_effects l pre ++ [QualitySet name l]) w, Thrown e).
Proof.
  intros Q F. revert w. induction pre as [| [n c] pre IH]; intros w.
  - cbn [app notifyComponents]. unfold bind at 1. unfold bind at 1. unfold effect.
    rewrite F. reflexivity.
  - cbn [forallb] in Q. apply andb_prop in Q as [Qc Qr]. specialize (IH Qr).
    cbn [app notifyComponents]. rewrite quality_effects_cons.
    destruct c as [[[g |]] |].
    + assert (G : g l = Returns).
      { unfold quiet_entry in Qc. cbn in Qc.
        apply andb_prop in Qc as [Qhm Ql]. apply andb_prop in Qhm as [Qh Qm].
        destruct l; now apply returns_true. }
      unfold bind at 1. unfold bind at 1. unfold effect. rewrite G. cbn [call ret].
      rewrite IH. now rewrite with_trace_app, <- app_assoc.
    + unfold bind at 1. unfold ret at 1. now rewrite IH.
    + unfold bind at 1. unfold ret at 1. now rewrite IH.
Qed.

(** X6: A component that throws from [setQualityLevel] ends the round where it
    stands: the level is stored already and the components before it have
    been told, but the components after it are not told, the renderer is
    not adjusted, no listener of [performanceLevelChanged] is called, and
    the exception leaves [setPerformanceLevel]. *)
Theorem setPerformanceLevel_stops_at_throwing_component
    (l : Level) (w : World) (pre post : list (string * option Component))
    (name : string) (f : Level -> outcome) (e : ErrorVal) :
  components w = pre ++ (name, Some (mkComponent (Some f))) :: post ->
  forallb quiet_entry pre = true ->
  f l = Throws e ->
  let w' := exec (setPerformanceLevel (VStr (level_name l))) w in
  completion (setPerformanceLevel (VStr (level_name l))) w = Thrown e
  /\ currentPerformanceLevel w' = l
  /\ trace w' = trace w ++ quality_effects l pre ++ [QualitySet name l]
  /\ quality_calls (trace w')
     = quality_calls (trace w) ++ map (fun n => (n, l)) (adjustable pre) ++ [(name, l)]
  /\ invocations (trace w') = invocations (trace w).
Proof.
  intros C Q F.
  assert (R : setPerformanceLevel (VStr (level_name l)) w
              = (with_trace (trace w ++ quality_effects l pre ++ [QualitySet name l])
                            (with_level l w), Thrown e)).
  { unfold setPerformanceLevel. rewrite level_of_value_name.
    unfold bind at 1. unfold modify. unfold bind at 1. unfold gets.
    unfold bind at 1. cbn [components with_level]. rewrite C.
    now rewrite (notifyComponents_throwing l pre post name f e _ Q F). }
  cbn zeta. unfold completion, exec. rewrite R. cbn [fst snd trace with_trace].
  repeat split.
  - rewrite !quality_calls_app, quality_calls_quality_effects. reflexivity.
  - rewrite !invocations_app, invocations_quality_effects. cbn. now rewrite app_nil_r.
Qed.

Lemma setPerformanceLevel_stops_at_throwing_component_witness :
  (components fragile_world
   = [("apiClient", None); ("chatManager", Some steady_component)]
     ++ ("voiceManager", Some (mkComponent (Some (fun _ => Throws (ErrObj "component failed")))))
        :: [("spatialOptimizer", Some steady_component)]
   /\ forallb quiet_entry [("apiClient", None); ("chatManager", Some steady_component)] = true)
  /\ completion (setPerformanceLevel (VStr (level_name low))) fragile_world
     = Thrown (ErrObj "component failed")
  /\ currentPerformanceLevel (exec (setPerformanceLevel (VStr (level_name low))) fragile_world)
     = low
  /\ trace (exec (setPerformanceLevel (VStr (level_name low))) fragile_world)
     = trace fragile_world
       ++ quality_effects low [("apiClient", None); ("chatManager", Some steady_component)]
       ++ [QualitySet "voiceManager" low].
Proof.
  split; [split; reflexivity |].
  destruct (setPerformanceLevel_stops_at_throwing_component low fragile_world
              [("apiClient", None); ("chatManager", Some steady_component)]
              [("spatialOptimizer", Some steady_component)]
              "voiceManager" (fun _ => Throws (ErrObj "component failed"))
              (ErrObj "component failed") eq_refl eq_refl eq_refl)
    as (T & L & Tr & _).
  split; [exact T | split; [exact L | exact Tr]].
Defined.

(** ** Renderer settings *)

(** X7: With a scene renderer, [applyGlobalPerformanceSettings] sets the shadow
    map and the pixel ratio once each: shadows are on exactly when the
    level is not [low]; the ratio is never above 2, at [low] it is 1
    whatever the device pixel ratio is, and otherwise it is never above the
    device pixel ratio.  Without a scene renderer nothing happens. *)
Theorem applyGlobalPerformanceSettings_bounds (l : Level) (w : World) :
  (sceneRenderer (env w) = false -> applyGlobalPerformanceSettings l w = (w, Normal tt))
  /\ (sceneRenderer (env w) = true ->
      exists ratio,
        applyGlobalPerformanceSettings l w
        = (with_trace (trace w ++ [ShadowMap (negb (level_eqb l low)); PixelRatio ratio]) w,
           Normal tt)
        /\ (ratio <= 2)%Q
        /\ (l = low -> ratio = 1%Q)
        /\ (l <> low -> (ratio <= devicePixelRatio (env w))%Q)).
Proof.
  rewrite applyGlobalPerformanceSettings_run. unfold renderer_effects. split; intros S; rewrite S.
  - now rewrite with_trace_nil.
  - destruct l; cbn [level_eqb negb]; eexists; (split; [reflexivity |]).
    + split; [apply Q.le_min_r |]. split; [discriminate | intros _; apply Q.le_min_l].
    + split; [eapply Qle_trans; [apply Q.le_min_r | discriminate] |].
      split; [discriminate | intros _; apply Q.le_min_l].
    + split; [discriminate |]. split; [reflexivity | congruence].
Qed.

Lemma applyGlobalPerformanceSettings_bounds_witness :
  (sceneRenderer (env headless_world) = false
   /\ applyGlobalPerformanceSettings medium headless_world = (headless_world, Normal tt))
  /\ sceneRenderer (env anonymous_world) = true
  /\ exists ratio,
       applyGlobalPerformanceSettings medium anonymous_world
       = (with_trace (trace anonymous_world
                      ++ [ShadowMap (negb (level_eqb medium low)); PixelRatio ratio])
                     anonymous_world, Normal tt)
       /\ (ratio <= 2)%Q
       /\ (medium = low -> ratio = 1%Q)
       /\ (medium <> low -> (ratio <= devicePixelRatio (env anonymous_world))%Q).
Proof.
  split; [split; [reflexivity |] |].
  - apply (proj1 (applyGlobalPerformanceSettings_bounds medium headless_world)). reflexivity.
  - split; [reflexivity |].
    apply (proj2 (applyGlobalPerformanceSettings_bounds medium anonymous_world)).
    reflexivity.
Defined.

(** ** More on device classification *)

Lemma level_name_inj (a b : Level) : level_name a = level_name b -> a = b.
Proof. destruct a, b; cbn; intros [=]; reflexivity. Qed.

Lemma memory_tier_mono (m m' : Q) : (m <= m')%Q -> memory_tier m <= memory_tier m'.
Proof.
  intros H. unfold memory_tier.
  destruct (Qlt_le_dec m 4), (Qlt_le_dec m 8), (Qlt_le_dec m' 4), (Qlt_le_dec m' 8);
    try lia; exfalso; lra.
Qed.

Lemma cpu_tier_mono (c c' : Z) : c <= c' -> cpu_tier c <= cpu_tier c'.
Proof.
  intros H. unfold cpu_tier.
  destruct (Z.ltb_spec c 4), (Z.ltb_spec c 8), (Z.ltb_spec c' 4), (Z.ltb_spec c' 8); lia.
Qed.

(** X8: A device with at least as much memory, at least as many cores and a
    GPU that is recognized if the other one is never gets a lower score,
    nor a lower level. *)
Theorem classification_is_monotone
    (renderer renderer' : string) (memory memory' : Q) (cores cores' : Z) (l l' : Level) :
  (memory <= memory')%Q ->
  cores <= cores' ->
  (recognizedGPU renderer = true -> recognizedGPU renderer' = true) ->
  levelForScore (performanceScore renderer memory cores) = level_name l ->
  levelForScore (performanceScore renderer' memory' cores') = level_name l' ->
  performanceScore renderer memory cores <= performanceScore renderer' memory' cores'
  /\ rank l <= rank l'.
Proof.
  intros Hm Hc Hg L L'.
  assert (S : performanceScore renderer memory cores
              <= performanceScore renderer' memory' cores').
  { rewrite !performanceScore_tiers.
    pose proof (memory_tier_mono _ _ Hm). pose proof (cpu_tier_mono _ _ Hc).
    unfold gpu_tier. destruct (recognizedGPU renderer), (recognizedGPU renderer'); lia. }
  split; [exact S |].
  rewrite levelForScore_thresholds in L, L'.
  apply level_name_inj in L, L'. subst l l'.
  destruct (Z.leb_spec 7 (performanceScore renderer memory cores)),
    (Z.leb_spec (performanceScore renderer memory cores) 4),
    (Z.leb_spec 7 (performanceScore renderer' memory' cores')),
    (Z.leb_spec (performanceScore renderer' memory' cores') 4); cbn; lia.
Qed.

Lemma classification_is_monotone_witness :
  ((2 <= 8)%Q /\ 4 <= 8
   /\ (recognizedGPU "Mali-G78" = true -> recognizedGPU "AMD Radeon Pro" = true)
   /\ levelForScore (performanceScore "Mali-G78" 2 4) = level_name low
   /\ levelForScore (performanceScore "AMD Radeon Pro" 8 8) = level_name high)
  /\ performanceScore "Mali-G78" 2 4 <= performanceScore "AMD Radeon Pro" 8 8
  /\ rank low <= rank high.
Proof.
  split; [repeat split; first [discriminate | reflexivity] |].
  apply (classification_is_monotone "Mali-G78" "AMD Radeon Pro" 2 8 4 8 low high);
    first [discriminate | reflexivity].
Defined.

(** X9: Which devices are rated [high], and which [low], in terms of what the
    browser reports: [high] needs 8 GB and 8 cores, or a recognized GPU
    with 8 of the one and at least 4 of the other; [low] is below 4 GB and
    below 4 cores, or an unrecognized GPU with one of the two below 4 and
    the other below 8. *)
Theorem classification_of_high_and_low (renderer : string) (memory : Q) (cores : Z) :
  (levelForScore (performanceScore renderer memory cores) = "high"
   <-> ((8 <= memory)%Q /\ 8 <= cores)
       \/ (recognizedGPU renderer = true
           /\ (((8 <= memory)%Q /\ 4 <= cores) \/ ((4 <= memory)%Q /\ 8 <= cores))))
  /\ (levelForScore (performanceScore renderer memory cores) = "low"
      <-> ((memory < 4)%Q /\ cores < 4)
          \/ (recognizedGPU renderer = false
              /\ (((memory < 4)%Q /\ cores < 8) \/ ((memory < 8)%Q /\ cores < 4)))).
Proof.
  rewrite levelForScore_thresholds, performanceScore_tiers.
  unfold memory_tier, cpu_tier, gpu_tier.
  destruct (Qlt_le_dec memory 4) as [M4 | M4], (Qlt_le_dec memory 8) as [M8 | M8],
    (Z.ltb_spec cores 4) as [C4 | C4], (Z.ltb_spec cores 8) as [C8 | C8],
    (recognizedGPU renderer); cbn;
    (split; (split; [ intros [=] | intros [[? ?] | [? [[? ?] | [? ?]]]] ]));
    try reflexivity; try discriminate; try (exfalso; lra); try (exfalso; lia);
    try (left; split; first [assumption | lra | lia]);
    try (right; split; [reflexivity |];
         first [ left; split; first [assumption | lra | lia]
               | right; split; first [assumption | lra | lia] ]).
Qed.

(** X10: When the browser reports neither [deviceMemory] nor
    [hardwareConcurrency], both count as 4 and the level detected is
    [medium], whatever the GPU is. *)
Theorem detection_without_navigator_hints_is_medium (w : World) (renderer : string) :
  webgl (env w) = Some renderer ->
  deviceMemory (env w) = None ->
  hardwareConcurrency (env w) = None ->
  currentPerformanceLevel (exec detectOptimalPerformanceLevel w) = medium.
Proof.
  intros G Hm Hc. unfold exec. rewrite detectOptimalPerformanceLevel_unfold, G. cbn zeta.
  apply setPerformanceLevel_level. unfold capturedProfile. rewrite Hm, Hc.
  cbn [or_default_Q or_default_Z memoryGB cpuCores].
  rewrite performanceScore_tiers.
  unfold gpu_tier. now destruct (recognizedGPU renderer).
Qed.

Lemma detection_without_navigator_hints_is_medium_witness :
  (webgl (env anonymous_world) = Some "Adreno (TM) 640"
   /\ deviceMemory (env anonymous_world) = None
   /\ hardwareConcurrency (env anonymous_world) = None)
  /\ currentPerformanceLevel (exec detectOptimalPerformanceLevel anonymous_world) = medium.
Proof.
  split; [repeat split |].
  apply (detection_without_navigator_hints_is_medium anonymous_world "Adreno (TM) 640");
    reflexivity.
Defined.

(** X11: A [performanceTarget] other than 'auto' switches detection off: a
    valid one becomes the level whatever the device is, and one that is
    not a level name leaves the level as it was. *)
Theorem explicit_target_bypasses_detection (target : value) (w : World) :
  is_auto target = false ->
  currentPerformanceLevel (exec (setupPerformanceAdaptation (Some target)) w)
  = match level_of_value target with
    | Some l => l
    | None => currentPerformanceLevel w
    end.
Proof.
  intros A. unfold setupPerformanceAdaptation. rewrite A.
  destruct (level_of_value target) as [l |] eqn:E.
  - now apply setPerformanceLevel_level.
  - unfold exec, setPerformanceLevel. now rewrite E.
Qed.

Lemma explicit_target_bypasses_detection_witness :
  is_auto (VStr "ultra") = false
  /\ currentPerformanceLevel
       (exec (setupPerformanceAdaptation (Some (VStr "ultra"))) headless_world)
     = match level_of_value (VStr "ultra") with
       | Some l => l
       | None => currentPerformanceLevel headless_world
       end.
Proof.
  split; [reflexivity |].
  apply (explicit_target_bypasses_detection (VStr "ultra") headless_world). reflexivity.
Defined.

(** ** More on upgrades and boosts *)

Lemma handleGoodPerformance_keeps_quiet (w : World) :
  quiet (exec handleGoodPerformance w) = quiet w.
Proof. reflexivity. Qed.

(** X12: A good-performance report by itself: nothing changes before the
    5000 ms are over; then the level goes up one tier ([high] stays), once,
    and no timer is left. *)
Theorem good_report_upgrades_after_cooldown (w : World) (t : Z) :
  quiet w = true ->
  timers w = [] ->
  0 <= t < 5000 ->
  currentPerformanceLevel (elapse t (exec handleGoodPerformance w))
  = currentPerformanceLevel w
  /\ currentPerformanceLevel (elapse 5000 (exec handleGoodPerformance w))
     = step_up (currentPerformanceLevel w)
  /\ timers (elapse 5000 (exec handleGoodPerformance w)) = [].
Proof.
  intros Q T Ht.
  set (tm := mkTimer (now w + 5000) UpgradeTask).
  assert (E1 : exec handleGoodPerformance w
               = with_timers [tm]
                   (with_trace (trace w ++ [ConsoleLog "Good performance detected:"]) w)).
  { unfold exec. rewrite handleGoodPerformance_run. cbn [fst]. now rewrite T. }
  rewrite E1. unfold elapse.
  rewrite !(advance_to_single _ tm) by reflexivity.
  cbn [due tm now with_timers with_trace].
  destruct (Z.leb_spec (now w + 5000) (now w + t)) as [? | _]; [lia |].
  rewrite Z.leb_refl. cbn zeta.
  split; [reflexivity |]. unfold tm.
  rewrite (fire_upgrade_quiet _
             (with_now _ (with_timers [] (with_timers _ (with_trace _ w)))) Q).
  clear. destruct w as [[] ? ? ? ? ? ? ?]; split; reflexivity.
Qed.

Lemma good_report_upgrades_after_cooldown_witness :
  (quiet low_world = true /\ timers low_world = [] /\ 0 <= 4999 < 5000)
  /\ currentPerformanceLevel (elapse 4999 (exec handleGoodPerformance low_world))
     = currentPerformanceLevel low_world
  /\ currentPerformanceLevel (elapse 5000 (exec handleGoodPerformance low_world))
     = step_up (currentPerformanceLevel low_world)
  /\ timers (elapse 5000 (exec handleGoodPerformance low_world)) = [].
Proof.
  split; [repeat split; first [discriminate | lia] |].
  apply (good_report_upgrades_after_cooldown low_world 4999); [reflexivity | reflexivity | lia].
Defined.

(** X13: A boost while a boost is running does nothing: the level is [high]
    already, so no second reversion is scheduled and the first one is not
    put off. *)
Theorem second_boost_does_not_extend (w : World) (d1 : Z) (d2 : option Z) :
  quiet w = true ->
  currentPerformanceLevel w <> high ->
  boostPerformanceTemporarily d2 (exec (boostPerformanceTemporarily (Some d1)) w)
  = (exec (boostPerformanceTemporarily (Some d1)) w, Normal tt).
Proof.
  intros Q H. apply boostPerformanceTemporarily_at_high.
  unfold exec. now rewrite (boostPerformanceTemporarily_quiet d1 w Q H).
Qed.

Lemma second_boost_does_not_extend_witness :
  (quiet low_world = true /\ currentPerformanceLevel low_world <> high)
  /\ boostPerformanceTemporarily (Some 9000)
       (exec (boostPerformanceTemporarily (Some 1000)) low_world)
     = (exec (boostPerformanceTemporarily (Some 1000)) low_world, Normal tt).
Proof.
  split; [split; [reflexivity | discriminate] |].
  apply (second_boost_does_not_extend low_world 1000 (Some 9000));
    [reflexivity | discriminate].
Defined.

Lemma fire_components (tm : Timer) (w : World) : components (fire tm w) = components w.
Proof.
  assert (S : forall v w0, components (exec (setPerformanceLevel v) w0) = components w0).
  { intros v w0. destruct (level_of_value v) as [l |] eqn:E.
    - destruct (setPerformanceLevel_frame v l w0 E) as (d & r & R).
      unfold exec. now rewrite R.
    - unfold exec, setPerformanceLevel. now rewrite E. }
  assert (R : components (exec (run_task (task tm)) w) = components w).
  { destruct (task tm) as [| original]; cbn [run_task].
    - unfold exec. rewrite upgrade_unfold.
      destruct (currentPerformanceLevel w); [reflexivity | |]; apply S.
    - apply S. }
  unfold fire. unfold exec in R.
  destruct (run_task (task tm) w) as [w' [[] | e]]; exact R.
Qed.

Lemma fire_quiet (tm : Timer) (w : World) : quiet (fire tm w) = quiet w.
Proof. unfold quiet. now rewrite fire_components. Qed.

Lemma fire_upgrade_level (t : Z) (w : World) :
  quiet w = true ->
  currentPerformanceLevel (fire (mkTimer t UpgradeTask) w)
  = step_up (currentPerformanceLevel w).
Proof.
  intros Q. rewrite (fire_upgrade_quiet t w Q).
  now destruct (currentPerformanceLevel w) eqn:L.
Qed.

(** The event loop with two pending timers, both due. *)
Lemma advance_to_pair (t : Z) (a b : Timer) (w : World) :
  timers w = [a; b] ->
  due a <= due b ->
  due b <= t ->
  advance_to t w
  = let w1 := fire a (with_now (Z.max (now w) (due a)) (with_timers [b] w)) in
    let w2 := fire b (with_now (Z.max (now w1) (due b)) (with_timers [] w1)) in
    with_now (Z.max (now w2) t) w2.
Proof.
  intros T Hab Hbt. unfold advance_to. rewrite T. cbn [length run_due]. rewrite T.
  cbn [pick].
  destruct (Z.leb_spec (due a) (due b)) as [_ | ?]; [| lia].
  destruct (Z.leb_spec (due a) t) as [_ | ?]; [| lia].
  rewrite fire_timers. cbn [timers with_now with_timers pick].
  destruct (Z.leb_spec (due b) t) as [_ | ?]; [| lia].
  reflexivity.
Qed.

(** X14: Upgrades add up: a second good-performance report within the 5000 ms
    of the first sets a second timer, and when both have run the level is
    two tiers up (from [low] to [high]); one cooldown does not limit the
    rise to one tier. *)
Theorem good_reports_stack (w : World) (t : Z) :
  quiet w = true ->
  timers w = [] ->
  0 <= t < 5000 ->
  timers (exec handleGoodPerformance (elapse t (exec handleGoodPerformance w)))
  = [mkTimer (now w + 5000) UpgradeTask; mkTimer (now w + t + 5000) UpgradeTask]
  /\ currentPerformanceLevel
       (advance_to (now w + t + 5000)
          (exec handleGoodPerformance (elapse t (exec handleGoodPerformance w))))
     = step_up (step_up (currentPerformanceLevel w))
  /\ timers (advance_to (now w + t + 5000)
               (exec handleGoodPerformance (elapse t (exec handleGoodPerformance w))))
     = [].
Proof.
  intros Q T Ht.
  set (a := mkTimer (now w + 5000) UpgradeTask).
  set (b := mkTimer (now w + t + 5000) UpgradeTask).
  assert (E1 : exec handleGoodPerformance w
               = with_timers [a]
                   (with_trace (trace w ++ [ConsoleLog "Good performance detected:"]) w)).
  { unfold exec. rewrite handleGoodPerformance_run. cbn [fst]. now rewrite T. }
  assert (E2 : elapse t (exec handleGoodPerformance w)
               = with_now (now w + t) (exec handleGoodPerformance w)).
  { rewrite E1. unfold elapse. rewrite (advance_to_single _ a) by reflexivity.
    cbn [due a now with_timers with_trace].
    destruct (Z.leb_spec (now w + 5000) (now w + t)) as [? | _]; [lia |].
    f_equal. lia. }
  set (w3 := exec handleGoodPerformance (elapse t (exec handleGoodPerformance w))).
  assert (T3 : timers w3 = [a; b]).
  { unfold w3. rewrite E2, E1. unfold exec. now rewrite handleGoodPerformance_run. }
  assert (Q3 : quiet w3 = true).
  { unfold w3. rewrite handleGoodPerformance_keeps_quiet, E2, E1. exact Q. }
  assert (L3 : currentPerformanceLevel w3 = currentPerformanceLevel w).
  { unfold w3. rewrite E2, E1. reflexivity. }
  split; [exact T3 |].
  rewrite (advance_to_pair _ a b w3 T3) by (cbn; lia).
  cbn zeta. clearbody w3.
  set (w1 := fire a (with_now (Z.max (now w3) (due a)) (with_timers [b] w3))).
  assert (Q1 : quiet w1 = true) by (unfold w1; rewrite fire_quiet; exact Q3).
  assert (L1 : currentPerformanceLevel w1 = step_up (currentPerformanceLevel w)).
  { unfold w1, a. rewrite <- L3.
    exact (fire_upgrade_level _ (with_now _ (with_timers [b] w3)) Q3). }
  clearbody w1. split.
  - rewrite <- L1.
    exact (fire_upgrade_level _ (with_now _ (with_timers [] w1)) Q1).
  - exact (fire_timers b (with_now _ (with_timers [] w1))).
Qed.

Lemma good_reports_stack_witness :
  (quiet low_world = true /\ timers low_world = [] /\ 0 <= 1000 < 5000)
  /\ currentPerformanceLevel
       (advance_to (now low_world + 1000 + 5000)
          (exec handleGoodPerformance (elapse 1000 (exec handleGoodPerformance low_world))))
     = step_up (step_up (currentPerformanceLevel low_world)).
Proof.
  split; [repeat split; first [discriminate | lia] |].
  apply (good_reports_stack low_world 1000); [reflexivity | reflexivity | lia].
Defined.

(** ** Voice activity *)

Lemma fire_revert_level (t : Z) (original : Level) (w : World) :
  quiet w = true ->
  currentPerformanceLevel (fire (mkTimer t (RevertTask original)) w) = original.
Proof. intros Q. now rewrite (fire_revert_quiet t original w Q). Qed.

Lemma handleVoiceActivityStart_unfold (w : World) :
  handleVoiceActivityStart w
  = boostPerformanceTemporarily (Some 5000)
      (with_trace (trace w ++ ConsoleLog "Voice activity started"
                           :: emit_effects "voiceActivityStart" PUndefined
                                           (registered "voiceActivityStart" w)) w).
Proof.
  unfold handleVoiceActivityStart, bind, effect. rewrite emit_run.
  change (boostPerformanceTemporarily None) with (boostPerformanceTemporarily (Some 5000)).
  f_equal. unfold registered. destruct w; cbn. now rewrite <- app_assoc.
Qed.

(** X15: The start of voice activity, below [high], with no component
    throwing and no timer pending: the level is [high] at once, one
    reversion is pending, due 5000 ms later, and when it has run the level
    is what it was. *)
Theorem voice_activity_boosts_for_5000ms (w : World) :
  quiet w = true ->
  timers w = [] ->
  currentPerformanceLevel w <> high ->
  currentPerformanceLevel (exec handleVoiceActivityStart w) = high
  /\ timers (exec handleVoiceActivityStart w)
     = [mkTimer (now w + 5000) (RevertTask (currentPerformanceLevel w))]
  /\ currentPerformanceLevel (elapse 5000 (exec handleVoiceActivityStart w))
     = currentPerformanceLevel w.
Proof.
  intros Q T H.
  set (w0 := with_trace (trace w ++ ConsoleLog "Voice activity started"
                                 :: emit_effects "voiceActivityStart" PUndefined
                                                 (registered "voiceActivityStart" w)) w).
  set (tm := mkTimer (now w + 5000) (RevertTask (currentPerformanceLevel w))).
  assert (E : exec handleVoiceActivityStart w
              = with_timers [tm] (with_trace (trace w0 ++ round high w0) (with_level high w0))).
  { unfold exec. rewrite handleVoiceActivityStart_unfold. fold w0.
    rewrite (boostPerformanceTemporarily_quiet 5000 w0 Q H). cbn [fst].
    unfold w0 at 1. cbn [timers with_trace]. now rewrite T. }
  rewrite E. split; [reflexivity |]. split; [reflexivity |].
  unfold elapse. rewrite (advance_to_single _ tm) by reflexivity.
  cbn [due tm]. change (now w0) with (now w).
  rewrite Z.leb_refl. cbn zeta. unfold tm.
  match goal with
  | |- currentPerformanceLevel (with_now _ (fire _ ?X)) = _ =>
      exact (fire_revert_level _ _ X Q)
  end.
Qed.

Lemma voice_activity_boosts_for_5000ms_witness :
  (quiet low_world = true /\ timers low_world = [] /\ currentPerformanceLevel low_world <> high)
  /\ currentPerformanceLevel (exec handleVoiceActivityStart low_world) = high
  /\ currentPerformanceLevel (elapse 5000 (exec handleVoiceActivityStart low_world))
     = currentPerformanceLevel low_world.
Proof.
  split; [repeat split; discriminate |].
  destruct (voice_activity_boosts_for_5000ms low_world eq_refl eq_refl) as (A & _ & B);
    [discriminate |].
  split; [exact A | exact B].
Defined.

(** ** More on error recovery *)

Lemma setPerformanceLevel_voice (v : value) (w : World) :
  enableVoiceOptimization (fst (setPerformanceLevel v w)) = enableVoiceOptimization w.
Proof.
  destruct (level_of_value v) as [l |] eqn:E.
  - destruct (setPerformanceLevel_frame v l w E) as (d & r & R). now rewrite R.
  - unfold setPerformanceLevel. now rewrite E.
Qed.

(** X16: A global error whose message contains 'voice' or 'audio' (as written,
    in lower case) switches voice optimization off; any other message
    leaves the switch alone; no error switches it on. *)
Theorem global_error_disables_voice (message : string) (w : World) :
  enableVoiceOptimization (exec (handleGlobalError (ErrObj message)) w)
  = enableVoiceOptimization w
    && negb (includes message "voice" || includes message "audio").
Proof.
  unfold exec. rewrite handleGlobalError_unfold, recoverFromError_unfold. cbn zeta.
  set (w0 := with_trace _ w).
  change (currentPerformanceLevel w0) with (currentPerformanceLevel w).
  destruct (includes message "voice" || includes message "audio");
    destruct (currentPerformanceLevel w);
    rewrite ?setPerformanceLevel_voice;
    cbn; now rewrite ?andb_false_r, ?andb_true_r.
Qed.

(** X18: Handling a global error never raises the level and never lowers it
    by more than one tier, whatever the error value is. *)
Theorem global_error_never_raises_level (error : ErrorVal) (w : World) :
  rank (currentPerformanceLevel (exec (handleGlobalError error) w))
  <= rank (currentPerformanceLevel w)
  <= rank (currentPerformanceLevel (exec (handleGlobalError error) w)) + 1.
Proof.
  destruct error as [| | message].
  - destruct (handleGlobalError_without_message w) as (E & _). rewrite E. lia.
  - destruct (handleGlobalError_without_message w) as (_ & E & _). rewrite E. lia.
  - rewrite handleGlobalError_with_message.
    destruct (currentPerformanceLevel w); cbn; lia.
Qed.

(** ** VR sessions *)

Lemma handleVREnter_frame (setData : option outcome) (w : World) :
  exists d r, handleVREnter setData w = (with_trace (trace w ++ d) (with_level high w), r).
Proof.
  unfold handleVREnter. unfold bind at 1. unfold effect.
  set (w0 := with_trace _ w).
  destruct (setPerformanceLevel_frame (VStr "high") high w0 eq_refl) as (d & r & R).
  unfold bind at 1. rewrite R. destruct r as [[] | e].
  - assert (K : trace_only
                  (let! cs := gets components in
                   match component_named "spatialOptimizer" cs with
                   | Some _ => match setData with
                               | Some o => call o
                               | None => ret tt
                               end
                   | None => ret tt
                   end >>
                   emit "vrEntered" PUndefined)).
    { apply trace_only_bind; [auto with frame |]. intros cs.
      apply trace_only_bind; [| auto with frame].
      destruct (component_named "spatialOptimizer" cs); [| auto with frame].
      destruct setData; auto with frame. }
    destruct (K (with_trace (trace w0 ++ d) (with_level high w0))) as (d' & r' & R').
    rewrite R'. exists ([ConsoleLog "Entered VR mode"] ++ d ++ d'), r'.
    f_equal. unfold w0. destruct w; cbn. now rewrite <- !app_assoc.
  - exists ([ConsoleLog "Entered VR mode"] ++ d), (Thrown e).
    f_equal. unfold w0. destruct w; cbn. now rewrite <- !app_assoc.
Qed.

(** What detection makes the level depends on the page only. *)
Lemma detectOptimalPerformanceLevel_level_env (w1 w2 : World) :
  env w1 = env w2 ->
  currentPerformanceLevel (exec detectOptimalPerformanceLevel w1)
  = currentPerformanceLevel (exec detectOptimalPerformanceLevel w2).
Proof.
  intros E. unfold exec. rewrite !detectOptimalPerformanceLevel_unfold, E.
  destruct (webgl (env w2)) as [renderer |].
  - cbn zeta.
    set (s := performanceScore renderer _ _).
    assert (V : level_of_value (VStr (levelForScore s))
                = Some (if 7 <=? s then high else if s <=? 4 then low else medium)).
    { rewrite levelForScore_thresholds. apply level_of_value_name. }
    assert (SL : forall w0, currentPerformanceLevel
                              (fst (setPerformanceLevel (VStr (levelForScore s)) w0))
                            = (if 7 <=? s then high else if s <=? 4 then low else medium))
      by (intros w0; now apply setPerformanceLevel_level).
    now rewrite !SL.
  - unfold bind.
    destruct (setPerformanceLevel_frame (VStr "low") low w1 eq_refl) as (d1 & r1 & R1).
    destruct (setPerformanceLevel_frame (VStr "low") low w2 eq_refl) as (d2 & r2 & R2).
    rewrite R1, R2. now destruct r1, r2.
Qed.

Lemma handleVRExit_level (w : World) :
  currentPerformanceLevel (exec handleVRExit w)
  = currentPerformanceLevel (exec detectOptimalPerformanceLevel w).
Proof.
  rewrite (detectOptimalPerformanceLevel_level_env w
             (with_trace (trace w ++ [ConsoleLog "Exited VR mode"]) w) eq_refl).
  unfold handleVRExit, exec. unfold bind at 1. unfold effect. unfold bind.
  destruct (detectOptimalPerformanceLevel _) as [w1 [[] | e]]; [| reflexivity].
  rewrite emit_run. reflexivity.
Qed.

(** X19: Entering VR makes the level [high], whatever it was and whatever
    throws on the way. *)
Theorem vr_enter_forces_high (setData : option outcome) (w : World) :
  currentPerformanceLevel (exec (handleVREnter setData) w) = high.
Proof.
  destruct (handleVREnter_frame setData w) as (d & r & R). unfold exec. now rewrite R.
Qed.

(** X20: Leaving VR does not bring back the level from before the session: the
    level after a session is the one detection gives on this device,
    whatever the level was when VR was entered. *)
Theorem vr_session_ends_at_detected_level (setData : option outcome) (w : World) :
  currentPerformanceLevel (exec handleVRExit (exec (handleVREnter setData) w))
  = currentPerformanceLevel (exec detectOptimalPerformanceLevel w).
Proof.
  rewrite handleVRExit_level. apply detectOptimalPerformanceLevel_level_env.
  destruct (handleVREnter_frame setData w) as (d & r & R). unfold exec. now rewrite R.
Qed.

(** For instance: a manager that low-performance reports have brought to
    [low] on a capable device is at [high] after a VR session. *)
Example vr_session_forgets_low_level :
  currentPerformanceLevel (exec (handleLowPerformance >> handleLowPerformance) sample_world)
  = low
  /\ currentPerformanceLevel
       (exec (handleLowPerformance >> handleLowPerformance >>
              handleVREnter None >> handleVRExit) sample_world)
     = high.
Proof. vm_compute. split; reflexivity. Qed.

(** ** Listeners that unregister while they are called *)

Lemma live_visit_S (event : string) (data : Payload) (k n : nat) (s : Live.Emitter) :
  Live.visit event data k (S n) s
  = Live.visit event data (S k) n
      match Live.registered event s !! k with
      | Some cb => Live.invoke event data cb s
      | None => s
      end.
Proof. reflexivity. Qed.

(** X21: A listener at the head of the list that takes itself off the
    event while it is called makes [emit] pass over the listener behind
    it: the others are called in order, the one passed over is not, and
    it is still registered afterwards (the listeners behind the first make
    no call of [on] or [off] for the event). *)
Theorem emit_passes_over_listener_behind_self_removal
    (event : string) (data : Payload) (s : Live.Emitter)
    (first second : Live.Listener) (others : list Live.Listener) :
  Live.registered event s = first :: second :: others ->
  fst (Live.l_run first data) = [Live.CallOff event (Live.l_id first)] ->
  Forall (Live.leaves_alone event data) (second :: others) ->
  invocations (Live.trace (Live.emit event data s))
  = invocations (Live.trace s)
    ++ (event, Live.l_id first, data)
       :: map (fun cb => (event, Live.l_id cb, data)) others
  /\ Live.registered event (Live.emit event data s) = second :: others.
Proof.
  intros R F A.
  assert (L : Live.listeners s !! event = Some (first :: second :: others)).
  { unfold Live.registered in R. destruct (Live.listeners s !! event); [| discriminate].
    now f_equal. }
  unfold Live.emit. rewrite L.
  change (length (first :: second :: others)) with (S (S (length others))).
  rewrite live_visit_S, R.
  change ((first :: second :: others) !! 0%nat) with (Some first).
  set (s1 := Live.invoke event data first s).
  assert (R1 : Live.registered event s1 = second :: others).
  { unfold s1, Live.invoke. rewrite F. cbn [fold_left Live.run_command].
    assert (O : Live.registered event
                  (Live.off event (Live.l_id first)
                     (Live.log (Invoked event (Live.l_id first) data) s))
                = second :: others).
    { rewrite live_registered_off.
      change (Live.registered event (Live.log _ s)) with (Live.registered event s).
      rewrite R. cbn. now rewrite Nat.eqb_refl. }
    destruct (snd (Live.l_run first data)); exact O. }
  assert (A1 : Forall (Live.leaves_alone event data) (Live.registered event s1))
    by now rewrite R1.
  destruct (live_visit_stable event data (S (length others)) 1 s1 A1) as [R' T'].
  rewrite R', T', R1. split; [| reflexivity].
  unfold s1. rewrite live_trace_invoke.
  change (drop 1 (second :: others)) with others.
  rewrite (take_ge others (S (length others))) by lia.
  rewrite !invocations_app, invocations_live_effects.
  unfold Live.invoke_effects.
  destruct (snd (Live.l_run first data)); cbn; now rewrite <- app_assoc.
Qed.

Lemma emit_passes_over_listener_behind_self_removal_witness :
  (Live.registered "ready" Live.sample_emitter
   = Live.once_listener :: Live.quiet_listener :: [Live.other_listener]
   /\ fst (Live.l_run Live.once_listener PUndefined)
      = [Live.CallOff "ready" (Live.l_id Live.once_listener)]
   /\ Forall (Live.leaves_alone "ready" PUndefined)
             (Live.quiet_listener :: [Live.other_listener]))
  /\ invocations (Live.trace (Live.emit "ready" PUndefined Live.sample_emitter))
     = invocations (Live.trace Live.sample_emitter)
       ++ ("ready", Live.l_id Live.once_listener, PUndefined)
          :: map (fun cb => ("ready", Live.l_id cb, PUndefined)) [Live.other_listener]
  /\ Live.registered "ready" (Live.emit "ready" PUndefined Live.sample_emitter)
     = Live.quiet_listener :: [Live.other_listener].
Proof.
  assert (A : Forall (Live.leaves_alone "ready" PUndefined)
                     (Live.quiet_listener :: [Live.other_listener])).
  { repeat constructor. }
  split; [split; [reflexivity | split; [reflexivity | exact A]] |].
  exact (emit_passes_over_listener_behind_self_removal "ready" PUndefined
           Live.sample_emitter Live.once_listener Live.quiet_listener
           [Live.other_listener] eq_refl eq_refl A).
Defined.
